(** * hw-app-ckb: the host-side client of the Nervos CKB Ledger app

    A shallow embedding of [src/index.ts]: the path encoder [pathToBuffer],
    the six public operations of class [Ckb], and the part of the Node.js
    [Buffer] API they use.  The transport and the three npm packages the
    file imports (bip32-path, blake2b-wasm, bech32) are collaborators that
    live outside the repository; they enter as the type classes [Transport]
    and [Packages]. *)

From Stdlib Require Import ZArith Lia List String Ascii DecimalString.
From Stdlib.Strings Require Import Byte.
From stdpp Require Import base list.
Import ListNotations.
Local Open Scope Z_scope.

(* ================================================================== *)
(** ** JavaScript values *)

(** What a [throw] carries.  The first three are the errors the Buffer
    methods raise; [Thrown] is anything a collaborator throws. *)
Inductive Exn : Type :=
| ERR_OUT_OF_RANGE
| ERR_BUFFER_OUT_OF_BOUNDS
| ERR_INVALID_ARG_VALUE
| Thrown (name message : string).

Inductive Result (A : Type) : Type :=
| Ok (a : A)
| Throw (e : Exn).
Arguments Ok {A} a.
Arguments Throw {A} e.

Definition bindR {A B} (r : Result A) (k : A -> Result B) : Result B :=
  match r with
  | Ok a => k a
  | Throw e => Throw e
  end.

Definition mapR {A B} (f : A -> B) (r : Result A) : Result B :=
  bindR r (fun a => Ok (f a)).

Declare Scope js_scope.
Delimit Scope js_scope with js.
Notation "x <- e ;; k" := (bindR e (fun x => k))
  (at level 20, e at level 99, k at level 200) : js_scope.
Local Open Scope js_scope.

(** A JS number as this file uses them: an integer, or the [NaN] that
    arithmetic on [undefined] produces. *)
Inductive number : Type :=
| NaN
| Num (z : Z).

Definition js_add (a b : number) : number :=
  match a, b with
  | Num x, Num y => Num (x + y)
  | _, _ => NaN
  end.

(* ================================================================== *)
(** ** Buffers *)

Abbreviation Buffer := (list byte).

Definition Z_of_byte (b : byte) : Z := Z.of_N (Byte.to_N b).

(** The store into a Uint8Array element keeps the low eight bits. *)
Definition byte_of_Z (z : Z) : byte :=
  match Byte.of_N (Z.to_N (z mod 256)) with
  | Some b => b
  | None => "000"%byte
  end.

Definition len {A} (l : list A) : Z := Z.of_nat (length l).

(** [Buffer.alloc(size)]: zero-filled. *)
Definition Buffer_alloc (size : Z) : Buffer :=
  replicate (Z.to_nat size) "000"%byte.

(** [buf[i]]; [None] is [undefined]. *)
Definition Buffer_get (buf : Buffer) (i : number) : option byte :=
  match i with
  | NaN => None
  | Num z => if z <? 0 then None else buf !! Z.to_nat z
  end.

(** [+v] for an element read. *)
Definition ToNumber (v : option byte) : number :=
  match v with
  | Some b => Num (Z_of_byte b)
  | None => NaN
  end.

(** [v & m]: ToInt32 sends [undefined] to 0. *)
Definition js_bitand (v : option byte) (m : Z) : Z :=
  match v with
  | Some b => Z.land (Z_of_byte b) m
  | None => 0
  end.

(** Node's [adjustOffset] (lib/buffer.js). *)
Definition adjustOffset (offset : number) (length : Z) : Z :=
  match offset with
  | NaN => 0
  | Num o =>
      if o =? 0 then 0
      else if o <? 0 then (if o + length >? 0 then o + length else 0)
      else if o <? length then o
      else length
  end.

(** [buf.subarray(start, end)]; [buf.slice] is the same function. *)
Definition subarray (buf : Buffer) (start end_ : number) : Buffer :=
  let srcLength := len buf in
  let start := adjustOffset start srcLength in
  let end_ := adjustOffset end_ srcLength in
  let newLength := if end_ >? start then end_ - start else 0 in
  take (Z.to_nat newLength) (drop (Z.to_nat start) buf).

Definition slice := subarray.

Definition boundsError (length : Z) : Exn :=
  if length <? 0 then ERR_BUFFER_OUT_OF_BOUNDS else ERR_OUT_OF_RANGE.

Definition in_bounds (buf : Buffer) (offset : Z) : bool :=
  (0 <=? offset) && (offset <? len buf).

(** [writeU_Int8(buf, value, offset, min, max)]: the value is checked
    first, then the offset. *)
Definition writeU_Int8 (buf : Buffer) (value offset min max : Z) : Result Buffer :=
  if (value >? max) || (value <? min) then Throw ERR_OUT_OF_RANGE
  else if negb (in_bounds buf offset) then Throw (boundsError (len buf - 1))
  else Ok (<[Z.to_nat offset := byte_of_Z value]> buf).

Definition writeUInt8 (buf : Buffer) (value offset : Z) : Result Buffer :=
  writeU_Int8 buf value offset 0 0xff.

Definition writeInt8 (buf : Buffer) (value offset : Z) : Result Buffer :=
  writeU_Int8 buf value offset (-0x80) 0x7f.

(** [writeUInt32BE]: range check, bounds check of the first and the last
    byte, then four stores from the least significant byte up. *)
Definition writeUInt32BE (buf : Buffer) (value offset : Z) : Result Buffer :=
  if (value >? 0xffffffff) || (value <? 0) then Throw ERR_OUT_OF_RANGE
  else if negb (in_bounds buf offset && in_bounds buf (offset + 3))
  then Throw (boundsError (len buf - 4))
  else
    let buf := <[Z.to_nat (offset + 3) := byte_of_Z value]> buf in
    let value := Z.shiftr value 8 in
    let buf := <[Z.to_nat (offset + 2) := byte_of_Z value]> buf in
    let value := Z.shiftr value 8 in
    let buf := <[Z.to_nat (offset + 1) := byte_of_Z value]> buf in
    let value := Z.shiftr value 8 in
    Ok (<[Z.to_nat offset := byte_of_Z value]> buf).

(** The pattern [value] repeated to [n] bytes, the last copy cut short. *)
Definition cycle_fill (value : Buffer) (n : nat) : Buffer :=
  take n (concat (replicate n value)).

(** [buf.fill(value, offset, end)] with a Buffer (or decoded string) as
    the pattern: offsets validated, an empty range left alone, an empty
    pattern refused. *)
Definition fill (buf value : Buffer) (offset end_ : Z) : Result Buffer :=
  if (offset <? 0) || (end_ <? 0) || (end_ >? len buf) then Throw ERR_OUT_OF_RANGE
  else if offset >=? end_ then Ok buf
  else if len value =? 0 then Throw ERR_INVALID_ARG_VALUE
  else Ok (take (Z.to_nat offset) buf
           ++ cycle_fill value (Z.to_nat (end_ - offset))
           ++ drop (Z.to_nat end_) buf).

(** [Buffer.concat]. *)
Definition Buffer_concat (l : list Buffer) : Buffer := concat l.

(** [Buffer.from(string)]: the bytes of the text. *)
Definition Buffer_from (s : string) : Buffer := list_byte_of_string s.

(** *** Hexadecimal text *)

Definition hex_digit (d : Z) : ascii :=
  nth (Z.to_nat d) (list_ascii_of_string "0123456789abcdef") "0"%char.

Definition hex_of_byte (b : byte) : list ascii :=
  [hex_digit (Z_of_byte b / 16); hex_digit (Z_of_byte b mod 16)].

(** [buf.toString("hex")] *)
Definition toString_hex (buf : Buffer) : string :=
  string_of_list_ascii (flat_map hex_of_byte buf).

(** [buf.toString("latin1")]: one character per byte. *)
Definition toString_latin1 (buf : Buffer) : string :=
  string_of_list_ascii (map ascii_of_byte buf).

Definition unhex (c : ascii) : option Z :=
  let n := Z.of_N (N_of_ascii c) in
  if (48 <=? n) && (n <=? 57) then Some (n - 48)
  else if (97 <=? n) && (n <=? 102) then Some (n - 87)
  else if (65 <=? n) && (n <=? 70) then Some (n - 55)
  else None.

(** Node's hex decoder: pairs of digits, stopping at the first pair that
    is not two hex digits; an odd trailing digit is dropped. *)
Fixpoint hex_decode (s : list ascii) : Buffer :=
  match s with
  | a :: b :: rest =>
      match unhex a, unhex b with
      | Some x, Some y => byte_of_Z (16 * x + y) :: hex_decode rest
      | _, _ => []
      end
  | _ => []
  end.

(** [Buffer.from(string, "hex")] *)
Definition Buffer_from_hex (s : string) : Buffer :=
  hex_decode (list_ascii_of_string s).

(** The empty string plus [v], for an element read. *)
Definition js_string_of (v : option byte) : string :=
  match v with
  | Some b => NilZero.string_of_uint (N.to_uint (Byte.to_N b))
  | None => "undefined"
  end.

(** [array.forEach((x, index) => ...)] over a body that updates a buffer
    and may throw. *)
Fixpoint forEach {A S} (body : A -> Z -> S -> Result S)
    (l : list A) (index : Z) (s : S) : Result S :=
  match l with
  | [] => Ok s
  | x :: l' => s' <- body x index s ;; forEach body l' (index + 1) s'
  end.

(* ================================================================== *)
(** ** Collaborators *)

(** One command frame: [transport.send(cla, ins, p1, p2, data)];
    [data] is [None] when the argument is left out. *)
Record APDU : Type := mkAPDU {
  cla : Z; ins : Z; p1 : Z; p2 : Z; data : option Buffer }.

(** The transport: a device with its own state that answers a frame
    with response bytes or throws.  The constructor's
    [decorateAppAPIMethods] serialises the decorated methods on the
    transport's lock; an operation run on its own, as here, goes through
    unchanged. *)
Class Transport : Type := {
  Device : Type;
  exchange : Device -> APDU -> Result Buffer * Device }.

(** What the package bech32 exports twice, as [bech32] and [bech32m]. *)
Record Bech32Lib : Type := {
  bech32_encode : string -> list Z -> Z -> Result string;
  bech32_toWords : list Z -> list Z }.

(** The npm packages [index.ts] imports. *)
Class Packages : Type := {
  (** [BIPPath.fromString(path).toPathArray()] *)
  BIPPath_fromString : string -> Result (list Z);
  (** [Blake2b(outlen, key, salt, personal).update(input).digest("binary")] *)
  Blake2b : Z -> option Buffer -> option Buffer -> option Buffer -> Buffer -> Buffer;
  bech32 : Bech32Lib;
  bech32m : Bech32Lib }.

(* ================================================================== *)
(** ** index.ts *)

Definition BECH32_LIMIT : Z := 1023.

Section Ckb.
Context `{Transport} `{Packages}.

Definition pathToBuffer (path : string) : Result Buffer :=
  bipPath <- BIPPath_fromString path ;;
  let data := Buffer_alloc (1 + len bipPath * 4) in
  data <- writeUInt8 data (len bipPath) 0 ;;
  forEach (fun segment index data => writeUInt32BE data segment (1 + index * 4))
          bipPath 0 data.

(** The object state an operation runs against: the device behind
    [this.transport], and the frames sent so far. *)
Record World : Type := mkWorld {
  device : Device;
  sent : list APDU }.

(** An [async] method body: each [await] is one blocking round trip. *)
Definition M (A : Type) : Type := World -> Result A * World.

Definition ret {A} (a : A) : M A := fun w => (Ok a, w).

Definition bindM {A B} (m : M A) (k : A -> M B) : M B :=
  fun w =>
    match m w with
    | (Ok a, w') => k a w'
    | (Throw e, w') => (Throw e, w')
    end.

Definition liftR {A} (r : Result A) : M A := fun w => (r, w).

Notation "x <~ e ;; k" := (bindM e (fun x => k))
  (at level 20, e at level 99, k at level 200) : js_scope.
Notation "x <-! e ;; k" := (bindM (liftR e) (fun x => k))
  (at level 20, e at level 99, k at level 200) : js_scope.

Definition transport_send (cla ins p1 p2 : Z) (data : option Buffer) : M Buffer :=
  fun w =>
    let frame := mkAPDU cla ins p1 p2 data in
    let (r, d) := exchange (device w) frame in
    (r, mkWorld d (sent w ++ [frame])).

Record WalletPublicKey : Type := {
  publicKey : string;
  lockArg : string;
  address : string }.

Definition hashPersonalization : Buffer :=
  map byte_of_Z [99; 107; 98; 45; 100; 101; 102; 97; 117; 108; 116; 45; 104; 97; 115; 104].

(** SECP256K1_BLAKE160 code hash *)
Definition code_hash : list Z :=
  [155; 215; 224; 111;  62; 207; 75;
   224; 242; 252; 210;  24; 139; 35;
   241; 185; 252; 200; 142;  93; 75;
   101; 168;  99; 123;  23; 114; 59;
   189; 163; 204; 232].

Definition getWalletPublicKey (path : string) (testnet : bool) : M WalletPublicKey :=
  let cla := 0x80 in
  let ins := 0x02 in
  let p1 := 0x00 in
  let p2 := 0x00 in
  pathBuf <-! pathToBuffer path ;;
  response <~ transport_send cla ins p1 p2 (Some pathBuf) ;;
  let publicKeyLength := Buffer_get response (Num 0) in
  let publicKey := slice response (Num 1) (js_add (Num 1) (ToNumber publicKeyLength)) in
  let compressedPublicKey := Buffer_alloc 33 in
  compressedPublicKey <-!
    fill compressedPublicKey
         (Buffer_from_hex
            (if js_bitand (Buffer_get publicKey (Num 64)) 1 =? 0 then "02" else "03"))
         0 1 ;;
  compressedPublicKey <-!
    fill compressedPublicKey (subarray publicKey (Num 1) (Num 33)) 1 33 ;;
  let lockArg :=
    subarray (Blake2b 32 None None (Some hashPersonalization) compressedPublicKey)
             (Num 0) (Num 20) in
  let addr_contents :=
    [0x00] ++ code_hash ++ [1] ++ map Z_of_byte lockArg in
  addr <-! bech32_encode bech32m (if testnet then "ckt" else "ckb")
             (bech32_toWords bech32m addr_contents) BECH32_LIMIT ;;
  ret {| publicKey := toString_hex publicKey;
         lockArg := toString_hex lockArg;
         address := addr |}.

Record WalletExtendedPublicKey : Type := {
  public_key : string;
  chain_code : string }.

Definition getWalletExtendedPublicKey (path : string) : M WalletExtendedPublicKey :=
  bipPath <-! BIPPath_fromString path ;;
  let cla := 0x80 in
  let ins := 0x04 in
  let p1 := 0x00 in
  let p2 := 0x00 in
  let data := Buffer_alloc (1 + len bipPath * 4) in
  data <-! writeUInt8 data (len bipPath) 0 ;;
  data <-! forEach (fun segment index data => writeUInt32BE data segment (1 + index * 4))
                   bipPath 0 data ;;
  response <~ transport_send cla ins p1 p2 (Some data) ;;
  let publicKeyLength := ToNumber (Buffer_get response (Num 0)) in
  let chainCodeOffset := js_add (Num 2) publicKeyLength in
  let chainCodeLength :=
    ToNumber (Buffer_get response (js_add (Num 1) publicKeyLength)) in
  ret {| public_key :=
           toString_hex (slice response (Num 1) (js_add (Num 1) publicKeyLength));
         chain_code :=
           toString_hex (slice response chainCodeOffset
                               (js_add chainCodeOffset chainCodeLength)) |}.

Record AppConfiguration : Type := {
  version : string;
  hash : string }.

Definition getAppConfiguration : M AppConfiguration :=
  response1 <~ transport_send 0x80 0x00 0x00 0x00 None ;;
  response2 <~ transport_send 0x80 0x09 0x00 0x00 None ;;
  ret {| version :=
           (EmptyString ++ js_string_of (Buffer_get response1 (Num 0)) ++ "."
               ++ js_string_of (Buffer_get response1 (Num 1)) ++ "."
               ++ js_string_of (Buffer_get response1 (Num 2)))%string;
         hash := toString_latin1 (slice response2 (Num 0) (Num (-3))) |}.

Definition getWalletId : M string :=
  response <~ transport_send 0x80 0x01 0x00 0x00 None ;;
  let result := toString_hex (slice response (Num 0) (Num 32)) in
  ret result.

(** [for (let i = start; i < start + n; i++) body(i)] *)
Fixpoint for_loop (n : nat) (i : Z) (body : Z -> M unit) : M unit :=
  match n with
  | O => ret tt
  | S n' => _ <~ body i ;; for_loop n' (i + 1) body
  end.

Definition signMessage (path rawMsgHex : string) (displayHex : bool) : M string :=
  bipPath <-! BIPPath_fromString path ;;
  let magicBytes := Buffer_from "Nervos Message:" in
  let rawMsg := Buffer_concat [magicBytes; Buffer_from_hex rawMsgHex] in
  (* Init apdu *)
  let rawPath := Buffer_alloc (1 + 1 + len bipPath * 4) in
  rawPath <-! writeInt8 rawPath (if displayHex then 1 else 0) 0 ;;
  rawPath <-! writeInt8 rawPath (len bipPath) 1 ;;
  rawPath <-! forEach (fun segment index rawPath =>
                         writeUInt32BE rawPath segment (2 + index * 4))
                      bipPath 0 rawPath ;;
  _ <~ transport_send 0x80 0x06 0x00 0x00 (Some rawPath) ;;
  (* Msg Chunking *)
  let maxApduSize := 230 in
  let txFullChunks := len rawMsg / maxApduSize in
  _ <~ for_loop (Z.to_nat txFullChunks) 0 (fun i =>
         let data := slice rawMsg (Num (i * maxApduSize)) (Num ((i + 1) * maxApduSize)) in
         _ <~ transport_send 0x80 0x06 0x01 0x00 (Some data) ;;
         ret tt) ;;
  let lastOffset := len rawMsg / maxApduSize * maxApduSize in
  let lastData := slice rawMsg (Num lastOffset) (Num (lastOffset + maxApduSize)) in
  response <~ transport_send 0x80 0x06 0x81 0x00 (Some lastData) ;;
  ret (toString_hex (slice response (Num 0) (Num 65))).

Definition signMessageHash (path rawMsgHex : string) : M string :=
  let rawMsg := Buffer_from_hex rawMsgHex in
  pathBuf <-! pathToBuffer path ;;
  _ <~ transport_send 0x80 0x07 0x00 0x00 (Some pathBuf) ;;
  response <~ transport_send 0x80 0x07 0x80 0x00 (Some rawMsg) ;;
  ret (toString_hex (slice response (Num 0) (Num 65))).

End Ckb.

(* ================================================================== *)
(** ** Stand-ins for the collaborators

    Concrete instances of [Transport] and [Packages] on which the
    operations can be run. *)

Module Double.

(** A device that plays back a script of replies, one per frame, and is
    disconnected once the script has run out. *)
Definition scripted_exchange (script : list (Result Buffer)) (_ : APDU)
  : Result Buffer * list (Result Buffer) :=
  match script with
  | r :: script' => (r, script')
  | [] => (Throw (Thrown "DisconnectedDevice" "no reply left"), [])
  end.

Definition scripted : Transport :=
  {| Device := list (Result Buffer); exchange := scripted_exchange |}.

(** A path parser that knows the paths of a table and rejects the rest. *)
Fixpoint table_fromString (table : list (string * list Z)) (path : string)
  : Result (list Z) :=
  match table with
  | [] => Throw (Thrown "Error" "Invalid input")
  | (p, segments) :: table' =>
      if String.eqb p path then Ok segments else table_fromString table' path
  end.

Definition paths : list (string * list Z) :=
  [ ("44'/144'/0'/0/0", [0x8000002C; 0x80000090; 0x80000000; 0; 0]);
    ("0", [0]);
    ("128 segments", replicate 128 7);
    ("256 segments", replicate 256 7) ]%string.

(** A digest of the requested length made of the input bytes. *)
Definition toy_digest (outlen : Z) (key salt personal : option Buffer)
    (input : Buffer) : Buffer :=
  take (Z.to_nat outlen) (input ++ replicate (Z.to_nat outlen) "000"%byte).

(** An encoder that keeps the length check of the real one and writes
    the words as letters after the prefix and the separator. *)
Definition toy_encode (prefix : string) (words : list Z) (LIMIT : Z)
  : Result string :=
  if Z.of_nat (String.length prefix) + 7 + len words >? LIMIT
  then Throw (Thrown "TypeError" "Exceeds length limit")
  else Ok (prefix ++ "1"
           ++ string_of_list_ascii
                (map (fun w => ascii_of_N (Z.to_N (97 + w mod 26))) words))%string.

Definition toy_bech32 : Bech32Lib :=
  {| bech32_encode := toy_encode; bech32_toWords := fun bytes => bytes |}.

Definition packages : Packages :=
  {| BIPPath_fromString := table_fromString paths;
     Blake2b := toy_digest;
     bech32 := toy_bech32;
     bech32m := toy_bech32 |}.

(** The world with [script] left to play and [frames] sent. *)
Definition world (script : list (Result Buffer)) (frames : list APDU)
  : @World scripted :=
  @mkWorld scripted script frames.

(** Run an operation against a script of replies. *)
Definition run {A} (op : @M scripted A) (script : list (Result Buffer))
  : Result A * @World scripted :=
  op (world script []).

Definition bytes (l : list Z) : Buffer := map byte_of_Z l.

(** A 65-byte key: 0x04, X = 1..32, Y = 101..132. *)
Definition key65 : Buffer :=
  bytes (4 :: map Z.of_nat (seq 1 32) ++ map Z.of_nat (seq 101 32)).

(** The same X, another prefix and another Y whose last byte is even too. *)
Definition key65' : Buffer :=
  bytes (6 :: map Z.of_nat (seq 1 32) ++ map Z.of_nat (seq 171 32)).

(** The status word that ends a reply. *)
Definition status : Buffer := bytes [0x90; 0x00].

End Double.

(** A second parser table, of paths as bip32-path reads them: two
    spellings of one path, and paths of 128 and of 256 segments. *)
Module Fixture.

(** The path 7/7/.../7 of [n] segments. *)
Fixpoint sevens (n : nat) : string :=
  match n with
  | O => EmptyString
  | S O => "7"
  | S n' => "7/" ++ sevens n'
  end.

Definition paths : list (string * list Z) :=
  [ ("0", [0]);
    ("m/0", [0]);
    ("1/2", [1; 2]);
    ("44'/144'/0'/0/0", [0x8000002C; 0x80000090; 0x80000000; 0; 0]);
    (sevens 128, replicate 128 7);
    (sevens 256, replicate 256 7) ]%string.

Definition packages : Packages :=
  {| BIPPath_fromString := Double.table_fromString paths;
     Blake2b := Double.toy_digest;
     bech32 := Double.toy_bech32;
     bech32m := Double.toy_bech32 |}.

(** What the device answers when the user declines. *)
Definition declined : Exn := Thrown "TransportStatusError" "0x6985".

End Fixture.

(** The digest and the encoder as the packages compute them: BLAKE2b
    (RFC 7693) with salt and personalisation in the parameter block, as
    blake2b-wasm sets it up, and [encode] and [toWords] of the package
    bech32 for its two exports. *)
Module Reference.

(** *** bech32 *)

Definition ALPHABET : list ascii :=
  list_ascii_of_string "qpzry9x8gf2tvdw0s3jn54khce6mua7l".

Definition charAt (x : Z) : ascii := nth (Z.to_nat x) ALPHABET " "%char.

Definition charCode (c : ascii) : Z := Z.of_N (N_of_ascii c).

Definition polymodStep (pre : Z) : Z :=
  let b := Z.shiftr pre 25 in
  let gen (i c : Z) := if Z.testbit b i then c else 0 in
  Z.lxor (Z.shiftl (Z.land pre 0x1ffffff) 5)
    (Z.lxor (gen 0 0x3b6a57b2)
       (Z.lxor (gen 1 0x26508e6d)
          (Z.lxor (gen 2 0x1ea119fa)
             (Z.lxor (gen 3 0x3d4233dd) (gen 4 0x2a1462b3))))).

Definition prefixChk (prefix : list ascii) : Result Z :=
  if forallb (fun c => (33 <=? charCode c) && (charCode c <=? 126)) prefix
  then
    let chk :=
      fold_left (fun chk c => Z.lxor (polymodStep chk) (Z.shiftr (charCode c) 5))
                prefix 1 in
    let chk := polymodStep chk in
    Ok (fold_left (fun chk c => Z.lxor (polymodStep chk) (Z.land (charCode c) 0x1f))
                  prefix chk)
  else Throw (Thrown "Error" "Invalid prefix").

Definition toLowerCase (c : ascii) : ascii :=
  if (65 <=? charCode c) && (charCode c <=? 90)
  then ascii_of_N (Z.to_N (charCode c + 32))
  else c.

(** The inner loop of [convert]: while [bits >= outBits], one word out. *)
Fixpoint drain (fuel : nat) (value bits outBits : Z) : list Z * Z :=
  match fuel with
  | O => ([], bits)
  | S fuel' =>
      if bits >=? outBits
      then
        let bits := bits - outBits in
        let (words, bits') := drain fuel' value bits outBits in
        (Z.land (Z.shiftr value bits) (Z.shiftl 1 outBits - 1) :: words, bits')
      else ([], bits)
  end.

(** [convert(data, inBits, outBits, true)]; [value] is kept to the 32
    bits a JS shift keeps. *)
Fixpoint convert (data : list Z) (inBits outBits value bits : Z) : list Z :=
  match data with
  | [] =>
      if bits >? 0
      then [Z.land (Z.shiftl value (outBits - bits)) (Z.shiftl 1 outBits - 1)]
      else []
  | x :: data' =>
      let value := Z.land (Z.lor (Z.shiftl value inBits) x) 0xffffffff in
      let bits := bits + inBits in
      let (words, bits) := drain (Z.to_nat bits) value bits outBits in
      words ++ convert data' inBits outBits value bits
  end.

Definition toWords (bytes : list Z) : list Z := convert bytes 8 5 0 0.

Fixpoint encode_words (words : list Z) (chk : Z) (result : list ascii)
  : Result (Z * list ascii) :=
  match words with
  | [] => Ok (chk, result)
  | x :: words' =>
      if Z.shiftr x 5 =? 0
      then encode_words words' (Z.lxor (polymodStep chk) x) (result ++ [charAt x])
      else Throw (Thrown "Error" "Non 5-bit word")
  end.

Definition encode (ENCODING_CONST : Z) (prefix : string) (words : list Z) (LIMIT : Z)
  : Result string :=
  let LIMIT := if LIMIT =? 0 then 90 else LIMIT in
  if Z.of_nat (String.length prefix) + 7 + len words >? LIMIT
  then Throw (Thrown "TypeError" "Exceeds length limit")
  else
    let prefix := map toLowerCase (list_ascii_of_string prefix) in
    chk <- prefixChk prefix ;;
    r <- encode_words words chk (prefix ++ ["1"%char]) ;;
    let (chk, result) := r : Z * list ascii in
    let chk := Nat.iter 6 polymodStep chk in
    let chk := Z.lxor chk ENCODING_CONST in
    Ok (string_of_list_ascii
          (result
           ++ map (fun i => charAt (Z.land (Z.shiftr chk ((5 - i) * 5)) 0x1f))
                  [0; 1; 2; 3; 4; 5])).

Definition bech32_export : Bech32Lib :=
  {| bech32_encode := encode 1; bech32_toWords := toWords |}.

Definition bech32m_export : Bech32Lib :=
  {| bech32_encode := encode 0x2bc830a3; bech32_toWords := toWords |}.

(** *** BLAKE2b *)

Definition IV : list Z :=
  [0x6a09e667f3bcc908; 0xbb67ae8584caa73b; 0x3c6ef372fe94f82b; 0xa54ff53a5f1d36f1;
   0x510e527fade682d1; 0x9b05688c2b3e6c1f; 0x1f83d9abfb41bd6b; 0x5be0cd19137e2179].

Definition SIGMA : list (list nat) :=
  [[0; 1; 2; 3; 4; 5; 6; 7; 8; 9; 10; 11; 12; 13; 14; 15];
   [14; 10; 4; 8; 9; 15; 13; 6; 1; 12; 0; 2; 11; 7; 5; 3];
   [11; 8; 12; 0; 5; 2; 15; 13; 10; 14; 3; 6; 7; 1; 9; 4];
   [7; 9; 3; 1; 13; 12; 11; 14; 2; 6; 5; 10; 4; 0; 15; 8];
   [9; 0; 5; 7; 2; 4; 10; 15; 14; 1; 11; 12; 6; 8; 3; 13];
   [2; 12; 6; 10; 0; 11; 8; 3; 4; 13; 7; 5; 15; 14; 1; 9];
   [12; 5; 1; 15; 14; 13; 4; 10; 0; 7; 6; 3; 9; 2; 8; 11];
   [13; 11; 7; 14; 12; 1; 3; 9; 5; 0; 15; 4; 8; 6; 2; 10];
   [6; 15; 14; 9; 11; 3; 0; 8; 12; 2; 13; 7; 1; 4; 10; 5];
   [10; 2; 8; 4; 7; 6; 1; 5; 15; 11; 9; 14; 3; 12; 13; 0]]%nat.

Definition w64 (z : Z) : Z := z mod 2 ^ 64.

Definition rotr64 (x n : Z) : Z :=
  w64 (Z.lor (Z.shiftr x n) (Z.shiftl x (64 - n))).

Definition word (v : list Z) (i : nat) : Z := nth i v 0.

Definition G (v : list Z) (a b c d : nat) (x y : Z) : list Z :=
  let va := w64 (word v a + word v b + x) in
  let vd := rotr64 (Z.lxor (word v d) va) 32 in
  let vc := w64 (word v c + vd) in
  let vb := rotr64 (Z.lxor (word v b) vc) 24 in
  let va := w64 (va + vb + y) in
  let vd := rotr64 (Z.lxor vd va) 16 in
  let vc := w64 (vc + vd) in
  let vb := rotr64 (Z.lxor vb vc) 63 in
  <[a := va]> (<[b := vb]> (<[c := vc]> (<[d := vd]> v))).

Definition round (m : list Z) (v : list Z) (r : nat) : list Z :=
  let s := nth (r mod 10) SIGMA [] in
  let mi (i : nat) := word m (nth i s O) in
  let v := G v 0 4 8 12 (mi 0%nat) (mi 1%nat) in
  let v := G v 1 5 9 13 (mi 2%nat) (mi 3%nat) in
  let v := G v 2 6 10 14 (mi 4%nat) (mi 5%nat) in
  let v := G v 3 7 11 15 (mi 6%nat) (mi 7%nat) in
  let v := G v 0 5 10 15 (mi 8%nat) (mi 9%nat) in
  let v := G v 1 6 11 12 (mi 10%nat) (mi 11%nat) in
  let v := G v 2 7 8 13 (mi 12%nat) (mi 13%nat) in
  G v 3 4 9 14 (mi 14%nat) (mi 15%nat).

(** The number a run of bytes spells, read little-endian. *)
Definition le_value (b : Buffer) : Z :=
  fold_right (fun x acc => Z_of_byte x + 256 * acc) 0 b.

Fixpoint words64 (n : nat) (b : Buffer) : list Z :=
  match n with
  | O => []
  | S n' => le_value (take 8 b) :: words64 n' (drop 8 b)
  end.

Definition compress (h : list Z) (block : Buffer) (t : Z) (last : bool) : list Z :=
  let m := words64 16 (block ++ replicate (128 - length block) "000"%byte) in
  let v := h ++ IV in
  let v := <[12%nat := Z.lxor (word v 12) (w64 t)]> v in
  let v := <[13%nat := Z.lxor (word v 13) (Z.shiftr t 64)]> v in
  let v := if last then <[14%nat := Z.lxor (word v 14) (2 ^ 64 - 1)]> v else v in
  let v := fold_left (round m) (seq 0 12) v in
  map (fun i => Z.lxor (word h i) (Z.lxor (word v i) (word v (i + 8)))) (seq 0 8).

(** The blocks of the input in turn, the last one final; [fuel] bounds
    their number. *)
Fixpoint absorb (fuel : nat) (h : list Z) (input : Buffer) (t : Z) : list Z :=
  match fuel with
  | O => h
  | S fuel' =>
      if (length input <=? 128)%nat
      then compress h input (t + len input) true
      else absorb fuel' (compress h (take 128 input) (t + 128) false)
                  (drop 128 input) (t + 128)
  end.

Definition le_bytes (n : nat) (z : Z) : Buffer :=
  map (fun i => byte_of_Z (Z.shiftr z (8 * Z.of_nat i))) (seq 0 n).

Definition pad16 (o : option Buffer) : Buffer :=
  match o with
  | Some b => take 16 (b ++ replicate 16 "000"%byte)
  | None => replicate 16 "000"%byte
  end.

Definition blake2b (outlen : Z) (key salt personal : option Buffer) (input : Buffer)
  : Buffer :=
  let keylen := match key with Some k => len k | None => 0 end in
  let params :=
    [byte_of_Z outlen; byte_of_Z keylen; byte_of_Z 1; byte_of_Z 1]
    ++ replicate 28 "000"%byte ++ pad16 salt ++ pad16 personal in
  let h := map (fun p => Z.lxor (fst p) (snd p)) (combine IV (words64 8 params)) in
  let input :=
    match key with
    | Some k =>
        if keylen >? 0
        then k ++ replicate (128 - length k) "000"%byte ++ input
        else input
    | None => input
    end in
  let h := absorb (S (length input)) h input 0 in
  take (Z.to_nat outlen) (flat_map (le_bytes 8) h).

Definition packages : Packages :=
  {| BIPPath_fromString := Double.table_fromString Fixture.paths;
     Blake2b := blake2b;
     bech32 := bech32_export;
     bech32m := bech32m_export |}.

End Reference.

(* ================================================================== *)
(** ** Vocabulary of the statements *)

Definition uint32 (z : Z) : Prop := 0 <= z <= 0xffffffff.

(** The four bytes [writeUInt32BE] stores, most significant first. *)
Definition be32 (v : Z) : Buffer :=
  [byte_of_Z (Z.shiftr v 24); byte_of_Z (Z.shiftr v 16);
   byte_of_Z (Z.shiftr v 8); byte_of_Z v].

(** The number a run of bytes spells, read big-endian. *)
Definition be_value (b : Buffer) : Z :=
  fold_left (fun acc x => acc * 256 + Z_of_byte x) b 0.

(** One length byte, then four bytes per segment. *)
Definition encoded_path (segments : list Z) : Buffer :=
  byte_of_Z (len segments) :: flat_map be32 segments.

(** The loop indices [i], [i + 1], ..., [n] of them. *)
Fixpoint iota (i : Z) (n : nat) : list Z :=
  match n with
  | O => []
  | S n' => i :: iota (i + 1) n'
  end.

(** The slice the chunking loop takes at index [i]. *)
Definition chunk_at (rawMsg : Buffer) (i : Z) : Buffer :=
  slice rawMsg (Num (i * 230)) (Num ((i + 1) * 230)).

(** What a signing operation returns, given the replies to its frames:
    the hex of the first 65 bytes of the last reply. *)
Definition signature_of (replies : list Buffer) : string :=
  toString_hex (take 65 (List.last replies [])).

(** A length byte read from a reply; a reply too short to hold it
    gives [undefined], which the slices that follow treat as 0. *)
Definition field_length (v : option byte) : nat :=
  match v with
  | Some b => Z.to_nat (Z_of_byte b)
  | None => O
  end.

Definition is_hex_digit (c : ascii) : bool :=
  match unhex c with
  | Some _ => true
  | None => false
  end.

(** [s] is made of pairs of hex digits (0-9, a-f, A-F). *)
Fixpoint hex_pairs (s : list ascii) : bool :=
  match s with
  | [] => true
  | a :: b :: rest => is_hex_digit a && is_hex_digit b && hex_pairs rest
  | _ => false
  end.

(** [s] begins with two hex digits. *)
Definition starts_with_hex_pair (s : list ascii) : bool :=
  match s with
  | a :: b :: _ => is_hex_digit a && is_hex_digit b
  | _ => false
  end.

(** The frames of [signMessage], for the init payload [rawPath] and the
    prefixed message [rawMsg]: init, one continuation frame per loop
    index, final. *)
Definition message_frames (rawPath rawMsg : Buffer) : list APDU :=
  mkAPDU 0x80 0x06 0x00 0x00 (Some rawPath)
  :: map (fun c => mkAPDU 0x80 0x06 0x01 0x00 (Some c))
         (map (chunk_at rawMsg) (iota 0 (Z.to_nat (len rawMsg / 230))))
  ++ [mkAPDU 0x80 0x06 0x81 0x00
             (Some (slice rawMsg (Num (len rawMsg / 230 * 230))
                          (Num (len rawMsg / 230 * 230 + 230))))].

(** Class byte 0x80, P2 0x00 and one of the instruction bytes [inss]. *)
Definition wire (inss : list Z) (f : APDU) : Prop :=
  cla f = 0x80 /\ p2 f = 0x00 /\ In (ins f) inss.

(** A frame of the message-signing exchange: the init frame, or a
    continuation or final frame with at most 230 bytes. *)
Definition message_frame (f : APDU) : Prop :=
  wire [0x06] f /\
  (p1 f = 0x00 \/
   ((p1 f = 0x01 \/ p1 f = 0x81) /\
    exists d : Buffer, data f = Some d /\ len d <= 230)).

Section Vocabulary.
Context `{Transport} `{Packages}.

(** [path] parses to [segments], each an unsigned 32-bit value. *)
Definition parses_to (path : string) (segments : list Z) : Prop :=
  BIPPath_fromString path = Ok segments /\ Forall uint32 segments.

(** The frames of a list sent one after the other, each awaiting its
    reply, stopping at the first that throws. *)
Fixpoint exchange_all (frames : list APDU) : M (list Buffer) :=
  match frames with
  | [] => ret []
  | f :: frames' =>
      bindM (transport_send (cla f) (ins f) (p1 f) (p2 f) (data f)) (fun r =>
      bindM (exchange_all frames') (fun rs => ret (r :: rs)))
  end.

(** Every operation that takes a path throws [e] on [path] and leaves the
    world as it was: nothing has been sent. *)
Definition fails_before_transport (path : string) (e : Exn) : Prop :=
  forall (w : World) (testnet displayHex : bool) (rawMsgHex : string),
    getWalletPublicKey path testnet w = (Throw e, w) /\
    getWalletExtendedPublicKey path w = (Throw e, w) /\
    signMessage path rawMsgHex displayHex w = (Throw e, w) /\
    signMessageHash path rawMsgHex w = (Throw e, w).

(** The operation [op] run from [w] sends [frame] first. *)
Definition sends_first {A} (op : M A) (w : World) (frame : APDU) : Prop :=
  exists rest, sent (snd (op w)) = sent w ++ frame :: rest.

(** What [getWalletPublicKey] does once the reply has arrived, as a
    function of the reply ([getWalletPublicKey_derive] below proves it). *)
Definition derive (response : Buffer) (testnet : bool) : Result WalletPublicKey :=
  let publicKeyLength := Buffer_get response (Num 0) in
  let publicKey := slice response (Num 1) (js_add (Num 1) (ToNumber publicKeyLength)) in
  compressedPublicKey <-
    fill (Buffer_alloc 33)
         (Buffer_from_hex
            (if js_bitand (Buffer_get publicKey (Num 64)) 1 =? 0 then "02" else "03"))
         0 1 ;;
  compressedPublicKey <-
    fill compressedPublicKey (subarray publicKey (Num 1) (Num 33)) 1 33 ;;
  let lockArg :=
    subarray (Blake2b 32 None None (Some hashPersonalization) compressedPublicKey)
             (Num 0) (Num 20) in
  addr <- bech32_encode bech32m (if testnet then "ckt" else "ckb")
            (bech32_toWords bech32m
               ([0x00] ++ code_hash ++ [1] ++ map Z_of_byte lockArg))
            BECH32_LIMIT ;;
  Ok {| publicKey := toString_hex publicKey;
        lockArg := toString_hex lockArg;
        address := addr |}.

(** Whatever the device does, [op] only adds frames to those sent, and
    every frame it adds satisfies [P]. *)
Definition sends_only {A} (P : APDU -> Prop) (op : M A) : Prop :=
  forall w : World,
    exists frames : list APDU,
      sent (snd (op w)) = sent w ++ frames /\ Forall P frames.


End Vocabulary.

(* ================================================================== *)
(** ** Bytes and buffers *)

Lemma Z_of_byte_range (b : byte) : 0 <= Z_of_byte b < 256.
Proof.
  unfold Z_of_byte. pose proof (Byte.to_N_bounded b). lia.
Qed.

Lemma Z_of_byte_of_Z (z : Z) : Z_of_byte (byte_of_Z z) = z mod 256.
Proof.
  unfold Z_of_byte, byte_of_Z.
  pose proof (Z.mod_pos_bound z 256 ltac:(lia)) as Hm.
  destruct (Byte.of_N (Z.to_N (z mod 256))) as [b|] eqn:E.
  - apply Byte.to_of_N in E. rewrite E. lia.
  - apply Byte.of_N_None_iff in E. lia.
Qed.

Lemma byte_of_Z_of_byte (b : byte) : byte_of_Z (Z_of_byte b) = b.
Proof.
  unfold byte_of_Z. pose proof (Z_of_byte_range b).
  rewrite Z.mod_small by lia. unfold Z_of_byte.
  rewrite N2Z.id, Byte.of_to_N. reflexivity.
Qed.

Lemma len_app {A} (l k : list A) : len (l ++ k) = len l + len k.
Proof. unfold len. rewrite length_app. lia. Qed.

Lemma len_nonneg {A} (l : list A) : 0 <= len l.
Proof. unfold len. lia. Qed.

Lemma len_replicate {A} (n : nat) (x : A) : len (replicate n x) = Z.of_nat n.
Proof. unfold len. now rewrite length_replicate. Qed.

Lemma be_value_be32 (v : Z) : uint32 v -> be_value (be32 v) = v.
Proof.
  unfold uint32, be_value, be32. intros Hv. simpl.
  rewrite !Z_of_byte_of_Z, !Z.shiftr_div_pow2 by lia.
  change (2 ^ 24) with 16777216. change (2 ^ 16) with 65536.
  change (2 ^ 8) with 256.
  rewrite (Z.mod_small (v / 16777216)) by
    (split; [apply Z.div_pos; lia | apply Z.div_lt_upper_bound; lia]).
  pose proof (Z.div_mod v 256 ltac:(lia)).
  pose proof (Z.div_mod (v / 256) 256 ltac:(lia)).
  pose proof (Z.div_mod (v / 256 / 256) 256 ltac:(lia)).
  replace (v / 65536) with (v / 256 / 256) by (rewrite Z.div_div by lia; reflexivity).
  replace (v / 16777216) with (v / 256 / 256 / 256) by (rewrite !Z.div_div by lia; reflexivity).
  lia.
Qed.

(** *** Writing a path into a fresh buffer *)

Lemma writeUInt32BE_zeros (pre post : Buffer) (v offset : Z) :
  uint32 v -> offset = len pre ->
  writeUInt32BE (pre ++ replicate 4 "000"%byte ++ post) v offset
  = Ok (pre ++ be32 v ++ post).
Proof.
  intros Hv ->. unfold writeUInt32BE, uint32 in *.
  replace ((v >? 4294967295) || (v <? 0)) with false by lia.
  unfold in_bounds. rewrite !len_app, len_replicate.
  pose proof (len_nonneg pre). pose proof (len_nonneg post).
  change (Z.of_nat 4) with 4.
  replace (negb _) with false by lia.
  f_equal. unfold len.
  replace (Z.to_nat (Z.of_nat (length pre) + 3)) with (length pre + 3)%nat by lia.
  replace (Z.to_nat (Z.of_nat (length pre) + 2)) with (length pre + 2)%nat by lia.
  replace (Z.to_nat (Z.of_nat (length pre) + 1)) with (length pre + 1)%nat by lia.
  replace (Z.to_nat (Z.of_nat (length pre))) with (length pre + 0)%nat by lia.
  rewrite !insert_app_r. simpl. rewrite !Z.shiftr_shiftr by lia.
  reflexivity.
Qed.

Lemma forEach_writeUInt32BE (base : Z) (segments : list Z) :
  forall (pre post : Buffer) (index : Z),
    Forall uint32 segments ->
    len pre = base + index * 4 ->
    forEach (fun segment index data => writeUInt32BE data segment (base + index * 4))
            segments index
            (pre ++ replicate (4 * length segments) "000"%byte ++ post)
    = Ok (pre ++ flat_map be32 segments ++ post).
Proof.
  induction segments as [|v segments IH]; intros pre post index Hall Hlen.
  - reflexivity.
  - apply Forall_cons in Hall as [Hv Hall].
    cbn [forEach flat_map].
    replace (4 * length (v :: segments))%nat with (4 + 4 * length segments)%nat
      by (simpl; lia).
    rewrite replicate_add, <- (app_assoc (replicate 4 _)).
    rewrite writeUInt32BE_zeros by (auto; lia).
    cbn [bindR].
    rewrite (app_assoc pre (be32 v)), IH; auto.
    + now rewrite <- !app_assoc.
    + rewrite len_app. unfold be32, len at 2. simpl. lia.
Qed.

Lemma writeU_Int8_throw (buf : Buffer) (v o min max : Z) :
  v > max \/ v < min -> writeU_Int8 buf v o min max = Throw ERR_OUT_OF_RANGE.
Proof.
  intros Hv. unfold writeU_Int8.
  now replace ((v >? max) || (v <? min)) with true by lia.
Qed.

Lemma writeU_Int8_ok (buf : Buffer) (v o min max : Z) :
  min <= v <= max -> 0 <= o < len buf ->
  writeU_Int8 buf v o min max = Ok (<[Z.to_nat o := byte_of_Z v]> buf).
Proof.
  intros Hv Ho. unfold writeU_Int8, in_bounds.
  replace ((v >? max) || (v <? min)) with false by lia.
  now replace (negb ((0 <=? o) && (o <? len buf))) with false by lia.
Qed.

Lemma Buffer_alloc_cons (n : Z) :
  0 <= n -> Buffer_alloc (1 + n) = "000"%byte :: Buffer_alloc n.
Proof.
  intros Hn. unfold Buffer_alloc.
  replace (Z.to_nat (1 + n)) with (S (Z.to_nat n)) by lia. reflexivity.
Qed.

Lemma Buffer_alloc_segments {A} (l : list A) :
  Buffer_alloc (len l * 4) = replicate (4 * length l) "000"%byte.
Proof.
  unfold Buffer_alloc, len. f_equal. lia.
Qed.

Lemma len_flat_map_be32 (segments : list Z) :
  len (flat_map be32 segments) = 4 * len segments.
Proof.
  unfold len. induction segments as [|v l IH]; simpl in *; lia.
Qed.

Lemma len_encoded_path (segments : list Z) :
  len (encoded_path segments) = 1 + 4 * len segments.
Proof.
  unfold encoded_path. change (len (?x :: ?l)) with (len ([x] ++ l)).
  rewrite len_app, len_flat_map_be32. reflexivity.
Qed.

Lemma be32_at (segments : list Z) (i : nat) (v : Z) :
  segments !! i = Some v ->
  take 4 (drop (4 * i) (flat_map be32 segments)) = be32 v.
Proof.
  revert i. induction segments as [|x l IH]; intros i Hi; [easy|].
  destruct i as [|i]; simpl in Hi.
  - injection Hi as ->. reflexivity.
  - replace (4 * S i)%nat with (4 + 4 * i)%nat by lia.
    cbn [flat_map]. rewrite <- drop_drop. change (drop 4 (be32 x ++ ?k)) with k.
    now apply IH.
Qed.

Section Encoder.
Context `{Packages}.

(** The buffer the path encoder builds, for a path it accepts. *)
Lemma pathToBuffer_encoded (path : string) (segments : list Z) :
  parses_to path segments -> len segments <= 255 ->
  pathToBuffer path = Ok (encoded_path segments).
Proof.
  intros [Hparse Hall] Hn. unfold pathToBuffer. rewrite Hparse. cbn [bindR].
  pose proof (len_nonneg segments).
  rewrite Buffer_alloc_cons, Buffer_alloc_segments by lia.
  unfold writeUInt8. rewrite writeU_Int8_ok by (unfold len in *; simpl; lia).
  cbn [bindR]. change (Z.to_nat 0) with O. cbn [insert list_insert].
  pose proof (forEach_writeUInt32BE 1 segments [byte_of_Z (len segments)] [] 0 Hall)
    as Hw.
  rewrite !app_nil_r in Hw. apply Hw. reflexivity.
Qed.

Lemma pathToBuffer_parse_error (path : string) (e : Exn) :
  BIPPath_fromString path = Throw e -> pathToBuffer path = Throw e.
Proof. intros Hp. unfold pathToBuffer. now rewrite Hp. Qed.

Lemma pathToBuffer_too_long (path : string) (segments : list Z) :
  BIPPath_fromString path = Ok segments -> 255 < len segments ->
  pathToBuffer path = Throw ERR_OUT_OF_RANGE.
Proof.
  intros Hp Hn. unfold pathToBuffer. rewrite Hp. cbn [bindR].
  unfold writeUInt8. rewrite writeU_Int8_throw by lia. reflexivity.
Qed.

End Encoder.

(** *** Slices *)

Lemma slice_range (buf : Buffer) (a b : Z) :
  0 <= a <= b ->
  slice buf (Num a) (Num b) = take (Z.to_nat (b - a)) (drop (Z.to_nat a) buf).
Proof.
  intros Hab. unfold slice, subarray, adjustOffset.
  pose proof (len_nonneg buf) as HL. unfold len in *.
  set (L := Z.of_nat (length buf)) in *.
  assert (Hover : forall n m : nat,
             (length buf <= m)%nat -> take n (drop m buf) = []).
  { intros n m Hm. rewrite drop_ge by lia. now destruct n. }
  assert (Hall : forall n m : nat,
             (length buf <= n + m)%nat -> take n (drop m buf) = drop m buf).
  { intros n m Hm. apply take_ge. rewrite length_drop. lia. }
  destruct (Z.eqb_spec a 0), (Z.eqb_spec b 0), (Z.ltb_spec a 0), (Z.ltb_spec b 0),
    (Z.ltb_spec a L), (Z.ltb_spec b L);
    try lia; subst;
    repeat match goal with
           | |- context [?x >? ?y] => destruct (Z.gtb_spec x y)
           end;
    try lia;
    try (f_equal; lia);
    try (rewrite !Hover by lia; reflexivity);
    try (rewrite !Hall by lia; reflexivity).
Qed.

Lemma slice_first (buf : Buffer) (n : Z) :
  0 <= n -> slice buf (Num 0) (Num n) = take (Z.to_nat n) buf.
Proof.
  intros Hn. rewrite slice_range by lia. now rewrite Z.sub_0_r.
Qed.

Lemma slice_drop_last (buf : Buffer) (k : Z) :
  k < 0 -> slice buf (Num 0) (Num k) = take (length buf - Z.to_nat (- k)) buf.
Proof.
  intros Hk. unfold slice, subarray, adjustOffset. cbn [Z.eqb drop].
  unfold len. set (L := Z.of_nat (length buf)).
  destruct (Z.eqb_spec k 0), (Z.ltb_spec k 0); try lia.
  destruct (Z.gtb_spec (k + L) 0).
  - destruct (Z.gtb_spec (k + L) 0); try lia. f_equal. lia.
  - cbn [Z.gtb Z.compare Z.to_nat].
    replace (length buf - Z.to_nat (- k))%nat with O by lia.
    reflexivity.
Qed.

Lemma len_alloc (n : Z) : 0 <= n -> len (Buffer_alloc n) = n.
Proof. intros Hn. unfold Buffer_alloc. rewrite len_replicate. lia. Qed.

(** *** Hexadecimal and Latin-1 text *)

Lemma length_string_of_list_ascii (l : list ascii) :
  String.length (string_of_list_ascii l) = length l.
Proof. induction l; simpl; auto. Qed.

Lemma length_toString_hex (buf : Buffer) :
  String.length (toString_hex buf) = (2 * length buf)%nat.
Proof.
  unfold toString_hex. rewrite length_string_of_list_ascii.
  induction buf; simpl in *; lia.
Qed.

Lemma length_toString_latin1 (buf : Buffer) :
  String.length (toString_latin1 buf) = length buf.
Proof.
  unfold toString_latin1. now rewrite length_string_of_list_ascii, length_map.
Qed.

Lemma hex_decode_byte (b : byte) (rest : list ascii) :
  hex_decode (hex_of_byte b ++ rest) = b :: hex_decode rest.
Proof. destruct b; reflexivity. Qed.

(** Decoding the hex text of a buffer gives the buffer back. *)
Lemma Buffer_from_hex_toString_hex (buf : Buffer) :
  Buffer_from_hex (toString_hex buf) = buf.
Proof.
  unfold Buffer_from_hex, toString_hex.
  rewrite list_ascii_of_string_of_list_ascii.
  induction buf as [|b buf IH]; [reflexivity|].
  cbn [flat_map]. now rewrite hex_decode_byte, IH.
Qed.

(* ================================================================== *)
(** ** Round trips *)

Section Operations.
Context `{Transport} `{Packages}.

Lemma bind_lift_ok {A B} (a : A) (k : A -> M B) (w : World) :
  bindM (liftR (Ok a)) k w = k a w.
Proof. reflexivity. Qed.

Lemma bind_lift_throw {A B} (e : Exn) (k : A -> M B) (w : World) :
  bindM (liftR (Throw e)) k w = (Throw e, w).
Proof. reflexivity. Qed.

Lemma bind_send_ok {B} (f : APDU) (k : Buffer -> M B) (w : World)
    (r : Buffer) (d : Device) :
  exchange (device w) f = (Ok r, d) ->
  bindM (transport_send (cla f) (ins f) (p1 f) (p2 f) (data f)) k w
  = k r (mkWorld d (sent w ++ [f])).
Proof.
  intros E. unfold bindM, transport_send. destruct f; cbn [cla ins p1 p2 data].
  now rewrite E.
Qed.

Lemma bind_send_throw {B} (f : APDU) (k : Buffer -> M B) (w : World)
    (e : Exn) (d : Device) :
  exchange (device w) f = (Throw e, d) ->
  bindM (transport_send (cla f) (ins f) (p1 f) (p2 f) (data f)) k w
  = (Throw e, mkWorld d (sent w ++ [f])).
Proof.
  intros E. unfold bindM, transport_send. destruct f; cbn [cla ins p1 p2 data].
  now rewrite E.
Qed.

(** Whatever happens, [exchange_all] has sent a prefix of its frames, and
    all of them when it returns. *)
Lemma exchange_all_sent (frames : list APDU) :
  forall (w w' : World) (r : Result (list Buffer)),
    exchange_all frames w = (r, w') ->
    exists k : nat,
      sent w' = sent w ++ take k frames /\
      (k <= length frames)%nat /\
      (frames <> [] -> (1 <= k)%nat) /\
      (forall rs, r = Ok rs -> k = length frames /\ length rs = length frames).
Proof.
  induction frames as [|f frames IH]; intros w w' r E.
  - injection E as <- <-. exists O. rewrite app_nil_r.
    split; [reflexivity|]. split; [reflexivity|]. split; [easy|].
    intros rs0 [= <-]. auto.
  - cbn [exchange_all] in E.
    destruct (exchange (device w) f) as [[r1|e] d] eqn:Ex.
    + rewrite (bind_send_ok f _ w r1 d Ex) in E.
      unfold bindM at 1 in E.
      destruct (exchange_all frames _) as [[rs|e] w1] eqn:Er.
      * injection E as <- <-.
        destruct (IH _ _ _ Er) as (k & Hs & Hk & _ & Hok).
        destruct (Hok rs eq_refl) as [-> Hl].
        exists (S (length frames)). cbn [sent] in Hs.
        rewrite Hs, <- app_assoc. cbn [take app length].
        split; [reflexivity|]. split; [lia|]. split; [lia|].
        intros rs0 [= <-]. simpl. lia.
      * injection E as <- <-.
        destruct (IH _ _ _ Er) as (k & Hs & Hk & _ & _).
        exists (S k). cbn [sent] in Hs. rewrite Hs, <- app_assoc.
        cbn [take app length].
        split; [reflexivity|]. split; [lia|]. split; [lia|]. easy.
    + rewrite (bind_send_throw f _ w e d Ex) in E. injection E as <- <-.
      exists 1%nat. cbn [sent take length]. rewrite take_0.
      split; [reflexivity|]. split; [lia|]. split; [lia|]. easy.
Qed.

End Operations.

(* ================================================================== *)
(** ** Paths *)

Section Paths.
Context `{Transport} `{Packages}.

Lemma flag_in_int8 (displayHex : bool) :
  -128 <= (if displayHex then 1 else 0) <= 127.
Proof. destruct displayHex; lia. Qed.

Lemma parse_error_fails_before_transport (path : string) (e : Exn) :
  BIPPath_fromString path = Throw e -> fails_before_transport path e.
Proof.
  intros Hp w testnet displayHex rawMsgHex.
  unfold getWalletPublicKey, getWalletExtendedPublicKey, signMessage,
    signMessageHash.
  cbv zeta. rewrite (pathToBuffer_parse_error _ _ Hp), Hp.
  rewrite !bind_lift_throw. auto.
Qed.

Lemma signMessage_count_throws (path : string) (segments : list Z)
    (rawMsgHex : string) (displayHex : bool) (w : World) :
  BIPPath_fromString path = Ok segments -> 127 < len segments ->
  signMessage path rawMsgHex displayHex w = (Throw ERR_OUT_OF_RANGE, w).
Proof.
  intros Hp Hn. unfold signMessage. cbv zeta. rewrite Hp, bind_lift_ok.
  pose proof (len_nonneg segments).
  unfold writeInt8.
  rewrite writeU_Int8_ok by (try apply flag_in_int8; rewrite len_alloc; lia).
  rewrite bind_lift_ok, writeU_Int8_throw by lia.
  apply bind_lift_throw.
Qed.

Lemma too_long_fails_before_transport (path : string) (segments : list Z) :
  BIPPath_fromString path = Ok segments -> 255 < len segments ->
  fails_before_transport path ERR_OUT_OF_RANGE.
Proof.
  intros Hp Hn w testnet displayHex rawMsgHex.
  split; [|split; [|split]].
  - unfold getWalletPublicKey. cbv zeta.
    rewrite (pathToBuffer_too_long _ _ Hp Hn). apply bind_lift_throw.
  - unfold getWalletExtendedPublicKey. cbv zeta. rewrite Hp, bind_lift_ok.
    unfold writeUInt8. rewrite writeU_Int8_throw by lia. apply bind_lift_throw.
  - apply (signMessage_count_throws _ _ _ _ _ Hp). lia.
  - unfold signMessageHash. cbv zeta.
    rewrite (pathToBuffer_too_long _ _ Hp Hn). apply bind_lift_throw.
Qed.

(** C5, as the code has it.  A path that parses to n segments,
    0 <= n <= 255, is encoded as a buffer of 1 + 4n bytes: the first byte
    is n, and the four bytes at offset 1 + 4i spell segment i big-endian.
    A path the parser rejects, or one of more than 255 segments, makes
    every operation that takes a path throw before anything is sent: the
    parser's own exception in the first case, the range error of the
    count write in the second.  The code has no error of its own for a
    malformed path. *)
Theorem path_encoding_and_rejection (path : string) :
  (forall segments,
      parses_to path segments -> len segments <= 255 ->
      exists (buf : Buffer) (first : byte),
        pathToBuffer path = Ok buf /\
        len buf = 1 + 4 * len segments /\
        Buffer_get buf (Num 0) = Some first /\
        Z_of_byte first = len segments /\
        forall (i : nat) (v : Z),
          segments !! i = Some v ->
          be_value (take 4 (drop (1 + 4 * i) buf)) = v)
  /\ (forall e,
         BIPPath_fromString path = Throw e -> fails_before_transport path e)
  /\ (forall segments,
         BIPPath_fromString path = Ok segments -> 255 < len segments ->
         fails_before_transport path ERR_OUT_OF_RANGE).
Proof.
  split; [|split].
  - intros segments Hparse Hn.
    exists (encoded_path segments), (byte_of_Z (len segments)).
    pose proof (len_nonneg segments) as Hpos.
    split; [now apply pathToBuffer_encoded|].
    split; [apply len_encoded_path|].
    split; [reflexivity|].
    split; [rewrite Z_of_byte_of_Z; apply Z.mod_small; lia|].
    intros i v Hi. unfold encoded_path. cbn [drop Nat.add].
    rewrite (be32_at _ _ _ Hi). apply be_value_be32.
    destruct Hparse as [_ Hall]. rewrite Forall_forall in Hall.
    apply Hall, list_elem_of_lookup. eauto.
  - apply parse_error_fails_before_transport.
  - apply too_long_fails_before_transport.
Qed.

End Paths.

(* ================================================================== *)
(** ** Signing *)

Lemma length_iota (i : Z) (n : nat) : length (iota i n) = n.
Proof. revert i. induction n; intros i; simpl; auto. Qed.

Lemma chunk_at_take (rawMsg : Buffer) (i : nat) :
  chunk_at rawMsg (Z.of_nat i) = take 230 (drop (230 * i) rawMsg).
Proof.
  unfold chunk_at. rewrite slice_range by lia. f_equal; [lia|f_equal; lia].
Qed.

Lemma chunks_concat (rawMsg : Buffer) (n : nat) :
  forall i : nat,
    concat (map (chunk_at rawMsg) (iota (Z.of_nat i) n))
    = take (230 * n) (drop (230 * i) rawMsg).
Proof.
  induction n as [|n IH]; intros i.
  - now rewrite Nat.mul_0_r.
  - cbn [iota map concat]. rewrite chunk_at_take.
    replace (Z.of_nat i + 1) with (Z.of_nat (S i)) by lia. rewrite IH.
    replace (230 * S i)%nat with (230 * i + 230)%nat by lia.
    rewrite <- drop_drop, take_take_drop. f_equal. lia.
Qed.

Lemma chunks_full (rawMsg : Buffer) (n : nat) :
  forall i : nat,
    (230 * (i + n) <= length rawMsg)%nat ->
    Forall (fun c : Buffer => len c = 230)
           (map (chunk_at rawMsg) (iota (Z.of_nat i) n)).
Proof.
  induction n as [|n IH]; intros i Hn; cbn [iota map]; constructor.
  - rewrite chunk_at_take. unfold len. rewrite length_take, length_drop. lia.
  - replace (Z.of_nat i + 1) with (Z.of_nat (S i)) by lia. apply IH. lia.
Qed.

Lemma last_chunk (rawMsg : Buffer) :
  let lastOffset := len rawMsg / 230 * 230 in
  slice rawMsg (Num lastOffset) (Num (lastOffset + 230))
  = drop (Z.to_nat lastOffset) rawMsg.
Proof.
  intros lastOffset.
  pose proof (len_nonneg rawMsg) as HL.
  pose proof (Z.div_mod (len rawMsg) 230 ltac:(lia)) as Hdm.
  pose proof (Z.mod_pos_bound (len rawMsg) 230 ltac:(lia)) as Hm.
  assert (0 <= len rawMsg / 230) by (apply Z.div_pos; lia).
  rewrite slice_range by (unfold lastOffset; lia).
  apply take_ge. rewrite length_drop. unfold lastOffset, len in *. lia.
Qed.

Section Signing.
Context `{Transport} `{Packages}.

Lemma bind_send (c i p q : Z) (dt : option Buffer) {B} (k : Buffer -> M B)
    (w : World) :
  bindM (transport_send c i p q dt) k w
  = match exchange (device w) (mkAPDU c i p q dt) with
    | (Ok r, d) => k r (mkWorld d (sent w ++ [mkAPDU c i p q dt]))
    | (Throw e, d) => (Throw e, mkWorld d (sent w ++ [mkAPDU c i p q dt]))
    end.
Proof.
  unfold bindM, transport_send.
  now destruct (exchange (device w) (mkAPDU c i p q dt)) as [[r|e] d].
Qed.

Lemma last_cons_nonempty {A} (x d : A) (l : list A) :
  l <> [] -> List.last (x :: l) d = List.last l d.
Proof. now destruct l. Qed.

(** Sending [f] and then [rest], seen from the last reply. *)
Lemma exchange_all_cons_last {B} (g : Buffer -> B) (f : APDU) (rest : list APDU)
    (w : World) :
  rest <> [] ->
  (let (r, w') := exchange_all (f :: rest) w in
   (mapR (fun rs => g (List.last rs [])) r, w'))
  = bindM (transport_send (cla f) (ins f) (p1 f) (p2 f) (data f))
          (fun _ w1 =>
             let (r, w') := exchange_all rest w1 in
             (mapR (fun rs => g (List.last rs [])) r, w')) w.
Proof.
  intros Hne. cbn [exchange_all]. rewrite !bind_send.
  destruct (exchange _ _) as [[r|e] d]; [|reflexivity].
  unfold bindM at 1.
  destruct (exchange_all rest _) as [[rs|e] w'] eqn:E; [|reflexivity].
  cbn [ret mapR bindR]. rewrite last_cons_nonempty; [reflexivity|].
  destruct (exchange_all_sent _ _ _ _ E) as (k & _ & _ & _ & Hok).
  destruct (Hok rs eq_refl) as [_ Hl].
  destruct rs; [destruct rest; simpl in Hl; congruence | easy].
Qed.

(** The chunking loop followed by the final frame. *)
Lemma loop_then_final {B} (g : Buffer -> B) (rawMsg lastData : Buffer) (n : nat) :
  forall (i : Z) (w : World),
    bindM (for_loop n i (fun i =>
             bindM (transport_send 0x80 0x06 0x01 0x00 (Some (chunk_at rawMsg i)))
                   (fun _ => ret tt)))
          (fun _ =>
             bindM (transport_send 0x80 0x06 0x81 0x00 (Some lastData))
                   (fun response => ret (g response))) w
    = (let (r, w') :=
         exchange_all
           (map (fun c => mkAPDU 0x80 0x06 0x01 0x00 (Some c))
                (map (chunk_at rawMsg) (iota i n))
            ++ [mkAPDU 0x80 0x06 0x81 0x00 (Some lastData)]) w in
       (mapR (fun rs => g (List.last rs [])) r, w')).
Proof.
  induction n as [|n IH]; intros i w.
  - cbn [for_loop iota map app exchange_all cla ins p1 p2 data].
    unfold bindM at 1. cbn [ret]. rewrite !bind_send.
    now destruct (exchange _ _) as [[r|e] d].
  - cbn [for_loop iota map app].
    etransitivity; [|symmetry; apply (exchange_all_cons_last g);
                     intros E; apply app_eq_nil in E as [_ E]; discriminate E].
    cbn [cla ins p1 p2 data]. rewrite bind_send.
    unfold bindM at 1. unfold bindM at 1. rewrite bind_send.
    destruct (exchange _ _) as [[r|e] d]; [|reflexivity].
    cbn [ret]. apply IH.
Qed.

End Signing.

Section SigningTheorems.
Context `{Transport} `{Packages}.

Lemma Buffer_alloc_flag_path {A} (l : list A) :
  Buffer_alloc (1 + 1 + len l * 4)
  = "000"%byte :: "000"%byte :: replicate (4 * length l) "000"%byte.
Proof.
  pose proof (len_nonneg l).
  rewrite <- Z.add_assoc, !Buffer_alloc_cons, Buffer_alloc_segments by lia.
  reflexivity.
Qed.

(** The init buffer of [signMessage]: the flag, then the encoded path. *)
Lemma signMessage_init {B} (segments : list Z) (displayHex : bool)
    (k : Buffer -> M B) (w : World) :
  Forall uint32 segments -> len segments <= 127 ->
  bindM (liftR (writeInt8 (Buffer_alloc (1 + 1 + len segments * 4))
                          (if displayHex then 1 else 0) 0))
        (fun rawPath =>
           bindM (liftR (writeInt8 rawPath (len segments) 1))
                 (fun rawPath =>
                    bindM (liftR (forEach (fun segment index rawPath =>
                                             writeUInt32BE rawPath segment (2 + index * 4))
                                          segments 0 rawPath))
                          k)) w
  = k (byte_of_Z (if displayHex then 1 else 0) :: encoded_path segments) w.
Proof.
  intros Hall Hn. pose proof (len_nonneg segments).
  rewrite Buffer_alloc_flag_path. unfold writeInt8.
  rewrite writeU_Int8_ok
    by (try apply flag_in_int8; unfold len in *; simpl; lia).
  rewrite bind_lift_ok. change (Z.to_nat 0) with O. cbn [insert list_insert].
  rewrite writeU_Int8_ok by (unfold len in *; simpl; lia).
  rewrite bind_lift_ok. change (Z.to_nat 1) with 1%nat. cbn [insert list_insert].
  pose proof (forEach_writeUInt32BE 2 segments
                [byte_of_Z (if displayHex then 1 else 0); byte_of_Z (len segments)]
                [] 0 Hall) as Hw.
  rewrite !app_nil_r in Hw. cbn [app] in Hw. rewrite Hw by reflexivity.
  apply bind_lift_ok.
Qed.

(** C1. With the payload the 15-byte tag followed by the decoded message,
    L bytes in all, [signMessage] sends the init frame (flag and encoded
    path), then L / 230 continuation frames of 230 bytes each, then one
    final frame with the remaining L mod 230 bytes, in this order; the
    continuation and final payloads concatenate to the payload; the
    signature is the hex of the first 65 bytes of the last reply.  A run
    that throws has sent a non-empty prefix of these frames. *)
Theorem signMessage_frames (path rawMsgHex : string) (displayHex : bool)
    (segments : list Z) :
  parses_to path segments -> len segments <= 127 ->
  let payload := Buffer_from "Nervos Message:" ++ Buffer_from_hex rawMsgHex in
  exists (conts : list Buffer) (final : Buffer),
    let frames :=
      mkAPDU 0x80 0x06 0x00 0x00
             (Some (byte_of_Z (if displayHex then 1 else 0) :: encoded_path segments))
      :: map (fun c => mkAPDU 0x80 0x06 0x01 0x00 (Some c)) conts
      ++ [mkAPDU 0x80 0x06 0x81 0x00 (Some final)] in
    len (Buffer_from "Nervos Message:") = 15 /\
    len conts = len payload / 230 /\
    Forall (fun c : Buffer => len c = 230) conts /\
    len final = len payload mod 230 /\
    concat conts ++ final = payload /\
    forall w : World,
      signMessage path rawMsgHex displayHex w
      = (let (r, w') := exchange_all frames w in (mapR signature_of r, w')) /\
      exists k : nat,
        (1 <= k <= length frames)%nat /\
        sent (snd (signMessage path rawMsgHex displayHex w))
        = sent w ++ take k frames /\
        (forall sig,
            fst (signMessage path rawMsgHex displayHex w) = Ok sig ->
            k = length frames).
Proof.
  intros [Hp Hall] Hn payload.
  set (n := Z.to_nat (len payload / 230)).
  set (lastOffset := len payload / 230 * 230).
  exists (map (chunk_at payload) (iota 0 n)),
         (slice payload (Num lastOffset) (Num (lastOffset + 230))).
  intros frames.
  pose proof (len_nonneg payload) as HL.
  pose proof (Z.div_mod (len payload) 230 ltac:(lia)) as Hdm.
  pose proof (Z.mod_pos_bound (len payload) 230 ltac:(lia)) as Hm.
  assert (Hq : 0 <= len payload / 230) by (apply Z.div_pos; lia).
  assert (Hn230 : (230 * n)%nat = Z.to_nat lastOffset) by (unfold n, lastOffset; lia).
  split; [reflexivity|].
  split; [unfold len at 1; rewrite length_map, length_iota; unfold n; lia|].
  split; [apply (chunks_full payload n 0); unfold len in *; lia|].
  split; [unfold lastOffset; rewrite last_chunk; unfold len in *;
          rewrite length_drop; lia|].
  split.
  { unfold lastOffset. rewrite last_chunk. fold lastOffset.
    change (iota 0 n) with (iota (Z.of_nat 0) n).
    rewrite (chunks_concat payload n 0), <- Hn230. apply take_drop. }
  assert (Heq : forall w : World,
             signMessage path rawMsgHex displayHex w
             = (let (r, w') := exchange_all frames w in (mapR signature_of r, w'))).
  { intros w. unfold signMessage. cbv zeta. rewrite Hp, bind_lift_ok.
    rewrite signMessage_init by assumption.
    unfold Buffer_concat. cbn [concat]. rewrite app_nil_r. fold payload.
    set (g := fun response : Buffer => toString_hex (slice response (Num 0) (Num 65))).
    transitivity
      (let (r, w') := exchange_all frames w in
       (mapR (fun rs => g (List.last rs [])) r, w')).
    - unfold frames.
      etransitivity; [|symmetry; apply (exchange_all_cons_last g);
                       intros E; apply app_eq_nil in E as [_ E]; discriminate E].
      cbn [cla ins p1 p2 data]. rewrite !bind_send.
      destruct (exchange _ _) as [[r|e] d]; [|reflexivity].
      apply (loop_then_final g payload).
    - destruct (exchange_all frames w) as [[rs|e] w']; [|reflexivity].
      cbn [mapR bindR]. unfold g, signature_of. now rewrite slice_first by lia. }
  intros w. split; [apply Heq|].
  rewrite Heq.
  destruct (exchange_all frames w) as [r w'] eqn:E.
  destruct (exchange_all_sent _ _ _ _ E) as (k & Hs & Hk & Hk1 & Hok).
  exists k. cbn [fst snd].
  split; [split; [apply Hk1; discriminate | exact Hk]|].
  split; [exact Hs|].
  intros sig Hsig. destruct r as [rs|e]; [|discriminate].
  now destruct (Hok rs eq_refl).
Qed.

(** C8. [signMessageHash] does not chunk: for a path that encodes, it
    makes two exchanges, the init frame (ins 0x07, P1 0x00) with the
    encoded path and the final frame (ins 0x07, P1 0x80) with the whole
    decoded digest, and returns the hex of the first 65 bytes of the
    second reply. *)
Theorem signMessageHash_two_exchanges (path rawMsgHex : string)
    (segments : list Z) (w : World) (r1 r2 : Buffer) (d1 d2 : Device) :
  parses_to path segments -> len segments <= 255 ->
  let init := mkAPDU 0x80 0x07 0x00 0x00 (Some (encoded_path segments)) in
  let final := mkAPDU 0x80 0x07 0x80 0x00 (Some (Buffer_from_hex rawMsgHex)) in
  exchange (device w) init = (Ok r1, d1) ->
  exchange d1 final = (Ok r2, d2) ->
  signMessageHash path rawMsgHex w
  = (Ok (toString_hex (take 65 r2)), mkWorld d2 (sent w ++ [init; final])).
Proof.
  intros Hparse Hn init final E1 E2. unfold signMessageHash. cbv zeta.
  rewrite (pathToBuffer_encoded _ _ Hparse Hn), bind_lift_ok, bind_send.
  fold init. rewrite E1, bind_send. cbn [device sent]. fold final. rewrite E2.
  cbn [ret]. rewrite slice_first by lia. now rewrite <- app_assoc.
Qed.

(** C10. A path of 128 to 255 segments makes [signMessage] throw the
    range error of [writeInt8] with nothing sent, although [pathToBuffer]
    encodes it and the three other operations that take a path send their
    first frame with it. *)
Theorem signMessage_rejects_128_to_255 (path : string) (segments : list Z) :
  parses_to path segments -> 128 <= len segments <= 255 ->
  (forall (rawMsgHex : string) (displayHex : bool) (w : World),
      signMessage path rawMsgHex displayHex w = (Throw ERR_OUT_OF_RANGE, w)) /\
  writeInt8 (Buffer_alloc (1 + 1 + len segments * 4)) (len segments) 1
  = Throw ERR_OUT_OF_RANGE /\
  pathToBuffer path = Ok (encoded_path segments) /\
  (forall (testnet : bool) (w : World),
      sends_first (getWalletPublicKey path testnet) w
                  (mkAPDU 0x80 0x02 0x00 0x00 (Some (encoded_path segments)))) /\
  (forall w : World,
      sends_first (getWalletExtendedPublicKey path) w
                  (mkAPDU 0x80 0x04 0x00 0x00 (Some (encoded_path segments)))) /\
  (forall (rawMsgHex : string) (w : World),
      sends_first (signMessageHash path rawMsgHex) w
                  (mkAPDU 0x80 0x07 0x00 0x00 (Some (encoded_path segments)))).
Proof.
  intros Hparse [Hlo Hhi].
  pose proof (pathToBuffer_encoded _ _ Hparse Hhi) as Henc.
  destruct Hparse as [Hp Hall].
  split; [intros; apply (signMessage_count_throws _ _ _ _ _ Hp); lia|].
  split; [unfold writeInt8; apply writeU_Int8_throw; lia|].
  split; [exact Henc|].
  split; [|split].
  - intros testnet w. unfold sends_first, getWalletPublicKey. cbv zeta.
    rewrite Henc, bind_lift_ok, bind_send.
    destruct (exchange _ _) as [[r|e] d]; exists []; [|reflexivity].
    unfold bindM, liftR, ret.
    repeat match goal with
           | |- context [match ?x with Ok _ => _ | Throw _ => _ end] => destruct x
           end; reflexivity.
  - intros w. unfold sends_first, getWalletExtendedPublicKey. cbv zeta.
    unfold pathToBuffer in Henc. rewrite Hp in Henc. cbn [bindR] in Henc.
    rewrite Hp, bind_lift_ok.
    destruct (writeUInt8 _ _ 0) as [b|]; [|discriminate].
    cbn [bindR] in Henc. rewrite bind_lift_ok, Henc, bind_lift_ok, bind_send.
    destruct (exchange _ _) as [[r|e] d]; exists []; reflexivity.
  - intros rawMsgHex w. unfold sends_first, signMessageHash. cbv zeta.
    rewrite Henc, bind_lift_ok, bind_send.
    destruct (exchange _ _) as [[r|e] d]; [|exists []; reflexivity].
    rewrite bind_send. cbn [device sent].
    destruct (exchange _ _) as [[r'|e] d']; eexists; cbn [snd sent ret];
      rewrite <- app_assoc; reflexivity.
Qed.

End SigningTheorems.

(* ================================================================== *)
(** ** Public key and address *)

Lemma subarray_range (buf : Buffer) (a b : Z) :
  0 <= a <= b ->
  subarray buf (Num a) (Num b) = take (Z.to_nat (b - a)) (drop (Z.to_nat a) buf).
Proof. exact (slice_range buf a b). Qed.

Lemma fill_X (p : byte) (X : Buffer) :
  X <> [] ->
  fill (p :: replicate 32 "000"%byte) X 1 33 = Ok (p :: cycle_fill X 32).
Proof.
  intros HX. unfold fill.
  change (len (p :: replicate 32 "000"%byte)) with 33.
  destruct X as [|x X]; [congruence|].
  assert ((len (x :: X) =? 0) = false) as -> by (unfold len; simpl; lia).
  cbn [Z.ltb Z.gtb Z.geb Z.compare orb Pos.compare Pos.compare_cont].
  change (Z.to_nat 1) with 1%nat. change (Z.to_nat 33) with 33%nat.
  change (Z.to_nat (33 - 1)) with 32%nat.
  cbn [take drop replicate app]. now rewrite app_nil_r.
Qed.

Lemma fill_X_empty (p : byte) :
  fill (p :: replicate 32 "000"%byte) [] 1 33 = Throw ERR_INVALID_ARG_VALUE.
Proof. reflexivity. Qed.

Lemma cycle_fill_exact (X : Buffer) :
  length X = 32%nat -> cycle_fill X 32 = X.
Proof.
  intros HX. unfold cycle_fill.
  change (replicate 32 X) with (X :: replicate 31 X). cbn [concat].
  now apply take_app_length'.
Qed.

Lemma length_cycle_fill (X : Buffer) (n : nat) :
  X <> [] -> length (cycle_fill X n) = n.
Proof.
  intros HX. unfold cycle_fill. rewrite length_take.
  assert (n <= length (concat (replicate n X)))%nat; [|lia].
  destruct X as [|x X]; [congruence|]. clear HX.
  induction n as [|n IH]; [lia|].
  cbn [replicate concat]. rewrite length_app. simpl. lia.
Qed.

Lemma last_lookup_Z {A} (l : list A) (d : A) :
  l <> [] -> l !! (length l - 1)%nat = Some (List.last l d).
Proof.
  induction l as [|x l IH]; [congruence|]. intros _.
  destruct l as [|y l]; [reflexivity|].
  change (List.last (x :: y :: l) d) with (List.last (y :: l) d).
  rewrite <- IH by discriminate. simpl. now rewrite Nat.sub_0_r.
Qed.

Lemma parity_of_byte (b : byte) :
  (Z.land (Z_of_byte b) 1 =? 0) = Z.even (Z_of_byte b).
Proof. destruct b; reflexivity. Qed.

Section Address.
Context `{Transport} `{Packages}.

(** [getWalletPublicKey] is one exchange followed by [derive]. *)
Lemma getWalletPublicKey_derive (path : string) (testnet : bool) (w : World) :
  getWalletPublicKey path testnet w
  = match pathToBuffer path with
    | Throw e => (Throw e, w)
    | Ok pathBuf =>
        let frame := mkAPDU 0x80 0x02 0x00 0x00 (Some pathBuf) in
        match exchange (device w) frame with
        | (Ok response, d) => (derive response testnet, mkWorld d (sent w ++ [frame]))
        | (Throw e, d) => (Throw e, mkWorld d (sent w ++ [frame]))
        end
    end.
Proof.
  unfold getWalletPublicKey. cbv zeta.
  destruct (pathToBuffer path) as [pathBuf|e]; [|apply bind_lift_throw].
  rewrite bind_lift_ok, bind_send.
  destruct (exchange _ _) as [[response|e] d]; [|reflexivity].
  unfold derive, bindM, liftR, ret, bindR.
  repeat match goal with
         | |- context [match ?x with Ok _ => _ | Throw _ => _ end] => destruct x
         end; reflexivity.
Qed.

(** The compression buffer and what follows, for a key field of any
    length: the parity byte, then bytes 1..32 of the key repeated to 32
    bytes; an empty run of such bytes makes [fill] throw. *)
Lemma derive_any_length (response : Buffer) (testnet : bool) :
  let key :=
    slice response (Num 1) (js_add (Num 1) (ToNumber (Buffer_get response (Num 0)))) in
  let compressed :=
    byte_of_Z (if js_bitand (Buffer_get key (Num 64)) 1 =? 0 then 0x02 else 0x03)
    :: cycle_fill (take 32 (drop 1 key)) 32 in
  let lockArgBytes :=
    take 20 (Blake2b 32 None None (Some hashPersonalization) compressed) in
  derive response testnet
  = if len key <? 2 then Throw ERR_INVALID_ARG_VALUE
    else mapR (fun a => {| publicKey := toString_hex key;
                           lockArg := toString_hex lockArgBytes;
                           address := a |})
              (bech32_encode bech32m (if testnet then "ckt" else "ckb")
                 (bech32_toWords bech32m
                    ([0x00] ++ code_hash ++ [0x01] ++ map Z_of_byte lockArgBytes))
                 1023).
Proof.
  intros key compressed lockArgBytes. unfold derive. cbv zeta. fold key.
  assert (Hfill : forall v : Z,
             fill (Buffer_alloc 33)
                  (Buffer_from_hex (if v =? 0 then "02" else "03")) 0 1
             = Ok (byte_of_Z (if v =? 0 then 0x02 else 0x03)
                   :: replicate 32 "000"%byte)).
  { intros v. now destruct (v =? 0). }
  rewrite Hfill. cbn [bindR].
  rewrite subarray_range by lia.
  change (Z.to_nat (33 - 1)) with 32%nat. change (Z.to_nat 1) with 1%nat.
  destruct (Z.ltb_spec (len key) 2) as [Hshort|Hlong].
  - assert (take 32 (drop 1 key) = []) as ->.
    { destruct key as [|k0 [|k1 key']]; try reflexivity.
      unfold len in Hshort. simpl in Hshort. lia. }
    reflexivity.
  - rewrite fill_X.
    2:{ destruct key as [|k0 [|k1 key']]; try discriminate;
        unfold len in Hlong; simpl in Hlong; lia. }
    cbn [bindR]. rewrite subarray_range by lia.
    change (Z.to_nat (20 - 0)) with 20%nat. change (Z.to_nat 0) with 0%nat.
    cbn [drop]. reflexivity.
Qed.

(** The key field of a reply that announces 65 bytes and carries them. *)
Lemma key_of_response (key trailer : Buffer) :
  len key = 65 ->
  slice (byte_of_Z 65 :: key ++ trailer) (Num 1)
        (js_add (Num 1) (ToNumber (Buffer_get (byte_of_Z 65 :: key ++ trailer) (Num 0))))
  = key.
Proof.
  intros Hk. unfold Buffer_get. change (0 <? 0) with false.
  change (Z.to_nat 0) with O. cbn [lookup list_lookup ToNumber].
  change (Z_of_byte (byte_of_Z 65)) with 65. cbn [js_add].
  rewrite slice_range by lia.
  change (Z.to_nat (1 + 65 - 1)) with 65%nat. change (Z.to_nat 1) with 1%nat.
  cbn [drop]. apply take_app_length'. unfold len in Hk. lia.
Qed.

(** The pipeline on a 65-byte key: parity from the last byte, then X. *)
Lemma derive_65 (key trailer : Buffer) (testnet : bool) :
  len key = 65 ->
  let compressed :=
    byte_of_Z (if Z.even (Z_of_byte (List.last key "000"%byte)) then 0x02 else 0x03)
    :: take 32 (drop 1 key) in
  let lockArgBytes :=
    take 20 (Blake2b 32 None None (Some hashPersonalization) compressed) in
  derive (byte_of_Z 65 :: key ++ trailer) testnet
  = mapR (fun a => {| publicKey := toString_hex key;
                      lockArg := toString_hex lockArgBytes;
                      address := a |})
         (bech32_encode bech32m (if testnet then "ckt" else "ckb")
            (bech32_toWords bech32m
               ([0x00] ++ code_hash ++ [0x01] ++ map Z_of_byte lockArgBytes))
            1023).
Proof.
  intros Hk compressed lockArgBytes.
  pose proof (derive_any_length (byte_of_Z 65 :: key ++ trailer) testnet) as Hd.
  cbv zeta in Hd. rewrite (key_of_response key trailer Hk) in Hd.
  rewrite Hd. clear Hd.
  assert ((len key <? 2) = false) as -> by lia.
  assert (Hlen : length key = 65%nat) by (unfold len in Hk; lia).
  assert (Buffer_get key (Num 64) = Some (List.last key "000"%byte)) as ->.
  { cbn [Buffer_get Z.ltb Z.compare]. change (Z.to_nat 64) with (65 - 1)%nat.
    rewrite <- Hlen. apply last_lookup_Z. now destruct key. }
  cbn [js_bitand]. rewrite parity_of_byte.
  rewrite cycle_fill_exact; [reflexivity|].
  rewrite length_take, length_drop. lia.
Qed.

End Address.

Section AddressTheorems.
Context `{Transport} `{Packages}.


(** C3, as the code has it.  The length of the key is not validated.
    Whatever its length, a key field of two bytes or more is compressed
    (the prefix is 0x02 when byte 64 is missing, and bytes 1..32 are
    repeated to fill X when fewer than 32 are there), hashed and encoded,
    and the result is returned whenever the encoder accepts it; a key
    field of fewer than two bytes makes the Buffer fill throw. *)
Theorem key_length_not_validated (path : string) (segments : list Z)
    (testnet : bool) (w : World) (response : Buffer) (d : Device) :
  parses_to path segments -> len segments <= 255 ->
  let frame := mkAPDU 0x80 0x02 0x00 0x00 (Some (encoded_path segments)) in
  exchange (device w) frame = (Ok response, d) ->
  let key :=
    slice response (Num 1) (js_add (Num 1) (ToNumber (Buffer_get response (Num 0)))) in
  let compressed :=
    byte_of_Z (if js_bitand (Buffer_get key (Num 64)) 1 =? 0 then 0x02 else 0x03)
    :: cycle_fill (take 32 (drop 1 key)) 32 in
  let lockArgBytes :=
    take 20 (Blake2b 32 None None (Some hashPersonalization) compressed) in
  (2 <= len key ->
   len compressed = 33 /\
   getWalletPublicKey path testnet w
   = (mapR (fun a => {| publicKey := toString_hex key;
                        lockArg := toString_hex lockArgBytes;
                        address := a |})
           (bech32_encode bech32m (if testnet then "ckt" else "ckb")
              (bech32_toWords bech32m
                 ([0x00] ++ code_hash ++ [0x01] ++ map Z_of_byte lockArgBytes))
              1023),
      mkWorld d (sent w ++ [frame])))
  /\ (len key < 2 ->
      getWalletPublicKey path testnet w
      = (Throw ERR_INVALID_ARG_VALUE, mkWorld d (sent w ++ [frame]))).
Proof.
  intros Hparse Hn frame Ex key compressed lockArgBytes.
  assert (Hrun : getWalletPublicKey path testnet w
                 = (derive response testnet, mkWorld d (sent w ++ [frame]))).
  { rewrite getWalletPublicKey_derive, (pathToBuffer_encoded _ _ Hparse Hn).
    cbv zeta. fold frame. now rewrite Ex. }
  rewrite Hrun. pose proof (derive_any_length response testnet) as Hd.
  cbv zeta in Hd. fold key in Hd. rewrite Hd. split.
  - intros Hlong. assert ((len key <? 2) = false) as -> by lia.
    split; [|reflexivity].
    unfold compressed. change (len (?x :: ?l)) with (len ([x] ++ l)).
    rewrite len_app. unfold len at 2. rewrite length_cycle_fill; [reflexivity|].
    destruct key as [|k0 [|k1 key']]; try discriminate;
      unfold len in Hlong; simpl in Hlong; lia.
  - intros Hshort. now assert ((len key <? 2) = true) as -> by lia.
Qed.

(** C6, as the code has it.  The result depends on the reply only: two
    runs that receive the same reply return the same result, whatever
    the state of the device.  On the same reply, the testnet and the
    mainnet result have the same publicKey and lockArg, and their
    addresses are the encodings of the same words under the same limit
    with the prefixes ckt and ckb; what else of the address depends on
    the prefix is the encoder's. *)
Theorem address_deterministic (path : string) (segments : list Z) :
  parses_to path segments -> len segments <= 255 ->
  let frame := mkAPDU 0x80 0x02 0x00 0x00 (Some (encoded_path segments)) in
  (forall (testnet : bool) (w1 w2 : World) (response : Buffer) (d1 d2 : Device),
      exchange (device w1) frame = (Ok response, d1) ->
      exchange (device w2) frame = (Ok response, d2) ->
      fst (getWalletPublicKey path testnet w1)
      = fst (getWalletPublicKey path testnet w2))
  /\ (forall (w : World) (rT rM : WalletPublicKey),
         fst (getWalletPublicKey path true w) = Ok rT ->
         fst (getWalletPublicKey path false w) = Ok rM ->
         publicKey rT = publicKey rM /\
         lockArg rT = lockArg rM /\
         exists words : list Z,
           bech32_encode bech32m "ckt" words BECH32_LIMIT = Ok (address rT) /\
           bech32_encode bech32m "ckb" words BECH32_LIMIT = Ok (address rM)).
Proof.
  intros Hparse Hn frame. split.
  - intros testnet w1 w2 response d1 d2 E1 E2.
    rewrite !getWalletPublicKey_derive, (pathToBuffer_encoded _ _ Hparse Hn).
    cbv zeta. fold frame. now rewrite E1, E2.
  - intros w rT rM.
    rewrite !getWalletPublicKey_derive, (pathToBuffer_encoded _ _ Hparse Hn).
    cbv zeta. fold frame.
    destruct (exchange (device w) frame) as [[response|e] d]; [|discriminate].
    cbn [fst]. rewrite !derive_any_length. cbv zeta.
    destruct (len _ <? 2); [discriminate|].
    unfold mapR, BECH32_LIMIT.
    destruct (bech32_encode bech32m "ckt" _ _) as [aT|] eqn:ET; [|discriminate].
    destruct (bech32_encode bech32m "ckb" _ _) as [aM|] eqn:EM; [|discriminate].
    cbn [bindR]. intros [= <-] [= <-]. cbn [publicKey lockArg address].
    split; [reflexivity|]. split; [reflexivity|]. eauto.
Qed.

(** C9. Of a 65-byte key, lockArg and address see bytes 1..32 and the
    lowest bit of byte 64 only: two replies whose keys agree there give
    the same lockArg and address under the same network flag. *)
Theorem lockArg_depends_on_X_and_parity (path : string) (segments : list Z)
    (testnet : bool) (w1 w2 : World) (key1 key2 trailer1 trailer2 : Buffer)
    (d1 d2 : Device) :
  parses_to path segments -> len segments <= 255 ->
  let frame := mkAPDU 0x80 0x02 0x00 0x00 (Some (encoded_path segments)) in
  exchange (device w1) frame = (Ok (byte_of_Z 65 :: key1 ++ trailer1), d1) ->
  exchange (device w2) frame = (Ok (byte_of_Z 65 :: key2 ++ trailer2), d2) ->
  len key1 = 65 -> len key2 = 65 ->
  take 32 (drop 1 key1) = take 32 (drop 1 key2) ->
  Z.testbit (Z_of_byte (List.last key1 "000"%byte)) 0
  = Z.testbit (Z_of_byte (List.last key2 "000"%byte)) 0 ->
  mapR (fun r => (lockArg r, address r)) (fst (getWalletPublicKey path testnet w1))
  = mapR (fun r => (lockArg r, address r)) (fst (getWalletPublicKey path testnet w2)).
Proof.
  intros Hparse Hn frame E1 E2 Hk1 Hk2 HX Hbit.
  rewrite !getWalletPublicKey_derive, (pathToBuffer_encoded _ _ Hparse Hn).
  cbv zeta. fold frame. rewrite E1, E2. cbn [fst].
  rewrite (derive_65 key1 trailer1 testnet Hk1), (derive_65 key2 trailer2 testnet Hk2).
  cbv zeta. rewrite !Z.bit0_odd in Hbit.
  rewrite <- !Z.negb_odd, Hbit, HX.
  destruct (bech32_encode _ _ _ _); reflexivity.
Qed.

End AddressTheorems.

(* ================================================================== *)
(** ** Queries *)

Lemma adjustOffset_nonneg (o : number) (L : Z) : 0 <= L -> 0 <= adjustOffset o L.
Proof.
  intros HL. unfold adjustOffset. destruct o as [|o]; [lia|].
  destruct (o =? 0); [lia|].
  destruct (Z.ltb_spec o 0).
  - destruct (Z.gtb_spec (o + L) 0); lia.
  - destruct (Z.ltb_spec o L); lia.
Qed.

Lemma slice_to_NaN (buf : Buffer) (start : number) : slice buf start NaN = [].
Proof.
  unfold slice, subarray. cbn [adjustOffset].
  pose proof (adjustOffset_nonneg start (len buf) (len_nonneg buf)).
  destruct (Z.gtb_spec 0 (adjustOffset start (len buf))); [lia|]. reflexivity.
Qed.

Section Queries.
Context `{Transport} `{Packages}.

(** C2, as the code has it.  No operation checks the length of a reply,
    and a short reply never makes one fail: [getWalletId] returns the hex
    of the first 32 bytes there are, and [getWalletExtendedPublicKey] the
    hex of the bytes there are of either field, a missing length byte
    counting as 0. *)
Theorem responses_not_length_checked :
  (forall (w : World) (response : Buffer) (d : Device),
      let frame := mkAPDU 0x80 0x01 0x00 0x00 None in
      exchange (device w) frame = (Ok response, d) ->
      getWalletId w
      = (Ok (toString_hex (take 32 response)), mkWorld d (sent w ++ [frame])) /\
      String.length (toString_hex (take 32 response))
      = (2 * Nat.min 32 (length response))%nat)
  /\ (forall (path : string) (segments : list Z) (w : World) (response : Buffer)
             (d : Device),
         parses_to path segments -> len segments <= 255 ->
         let frame := mkAPDU 0x80 0x04 0x00 0x00 (Some (encoded_path segments)) in
         exchange (device w) frame = (Ok response, d) ->
         let L1 := field_length (response !! 0%nat) in
         let L2 := field_length (response !! (1 + L1)%nat) in
         getWalletExtendedPublicKey path w
         = (Ok {| public_key := toString_hex (take L1 (drop 1 response));
                  chain_code := toString_hex (take L2 (drop (2 + L1) response)) |},
            mkWorld d (sent w ++ [frame]))).
Proof.
  split.
  - intros w response d frame Ex. split.
    + unfold getWalletId. rewrite bind_send. fold frame. rewrite Ex.
      cbn [ret]. now rewrite slice_first by lia.
    + now rewrite length_toString_hex, length_take.
  - intros path segments w response d Hparse Hn frame Ex L1 L2.
    pose proof (pathToBuffer_encoded _ _ Hparse Hn) as Henc.
    destruct Hparse as [Hp Hall].
    unfold getWalletExtendedPublicKey. cbv zeta.
    unfold pathToBuffer in Henc. rewrite Hp in Henc. cbn [bindR] in Henc.
    rewrite Hp, bind_lift_ok.
    destruct (writeUInt8 _ _ 0) as [b|]; [|discriminate].
    cbn [bindR] in Henc. rewrite bind_lift_ok, Henc, bind_lift_ok, bind_send.
    fold frame. rewrite Ex. unfold ret. f_equal. f_equal.
    unfold Buffer_get. change (0 <? 0) with false. change (Z.to_nat 0) with O.
    subst L2 L1.
    destruct (response !! 0%nat) as [l1|] eqn:E0; cbn [ToNumber js_add field_length].
    + pose proof (Z_of_byte_range l1) as Hl1.
      assert ((1 + Z_of_byte l1 <? 0) = false) as -> by lia.
      replace (Z.to_nat (1 + Z_of_byte l1)) with (1 + Z.to_nat (Z_of_byte l1))%nat
        by lia.
      rewrite slice_range by lia.
      replace (Z.to_nat (1 + Z_of_byte l1 - 1)) with (Z.to_nat (Z_of_byte l1)) by lia.
      change (Z.to_nat 1) with 1%nat. f_equal. f_equal.
      destruct (response !! (1 + Z.to_nat (Z_of_byte l1))%nat) as [l2|];
        cbn [ToNumber js_add field_length].
      * pose proof (Z_of_byte_range l2) as Hl2.
        rewrite slice_range by lia. f_equal; [lia|f_equal; lia].
      * now rewrite slice_to_NaN.
    + destruct response; [reflexivity|discriminate E0].
Qed.

(** C7, as the code has it.  [getAppConfiguration] makes two exchanges,
    ins 0x00 then ins 0x09.  The version is the first three bytes of the
    first reply in decimal, joined by dots; the hash is the second reply
    without its last three bytes, one character per byte.  After [1,0,3]
    the version is 1.0.3.  A second reply of 29 bytes followed by
    0x00,0x90,0x00 gives those 29 bytes as a hash of 29 characters; a hash
    of 26 characters comes from a second reply of 29 bytes in all. *)
Theorem getAppConfiguration_replies (w : World) (r1 r2 : Buffer) (d1 d2 : Device) :
  let f1 := mkAPDU 0x80 0x00 0x00 0x00 None in
  let f2 := mkAPDU 0x80 0x09 0x00 0x00 None in
  exchange (device w) f1 = (Ok r1, d1) ->
  exchange d1 f2 = (Ok r2, d2) ->
  exists cfg : AppConfiguration,
    getAppConfiguration w = (Ok cfg, mkWorld d2 (sent w ++ [f1; f2])) /\
    (forall major minor patch rest,
        r1 = major :: minor :: patch :: rest ->
        version cfg
        = (js_string_of (Some major) ++ "." ++ js_string_of (Some minor)
             ++ "." ++ js_string_of (Some patch))%string) /\
    (r1 = map byte_of_Z [1; 0; 3] -> version cfg = "1.0.3"%string) /\
    hash cfg = toString_latin1 (take (length r2 - 3) r2) /\
    String.length (hash cfg) = (length r2 - 3)%nat /\
    (forall body : Buffer,
        r2 = body ++ map byte_of_Z [0x00; 0x90; 0x00] ->
        hash cfg = toString_latin1 body /\
        (length body = 29%nat -> String.length (hash cfg) = 29%nat)) /\
    (length r2 = 29%nat -> String.length (hash cfg) = 26%nat).
Proof.
  intros f1 f2 E1 E2.
  eexists. split.
  { unfold getAppConfiguration. rewrite bind_send. fold f1. rewrite E1.
    rewrite bind_send. cbn [device sent]. fold f2. rewrite E2. cbn [ret].
    rewrite <- app_assoc. reflexivity. }
  cbn [version hash].
  rewrite (slice_drop_last r2 (-3)) by lia. change (Z.to_nat (- -3)) with 3%nat.
  assert (Hlen : String.length (toString_latin1 (take (length r2 - 3) r2))
                 = (length r2 - 3)%nat)
    by (rewrite length_toString_latin1, length_take; lia).
  split; [now intros major minor patch rest ->|].
  split; [now intros ->|].
  split; [reflexivity|].
  split; [exact Hlen|].
  split.
  - intros body ->. rewrite length_app. cbn [map length].
    replace (length body + 3 - 3)%nat with (length body) by lia.
    rewrite take_app_length. split; [reflexivity|].
    intros Hb. now rewrite length_toString_latin1.
  - intros H29. now rewrite Hlen, H29.
Qed.

End Queries.

(* ================================================================== *)
(** ** The operations on concrete replies *)

Section Concrete.
#[local] Existing Instance Double.scripted.
#[local] Existing Instance Double.packages.
Local Open Scope string_scope.


Example pathToBuffer_ckb :
  mapR (map Z_of_byte) (pathToBuffer "44'/144'/0'/0/0")
  = Ok [5; 128; 0; 0; 44; 128; 0; 0; 144; 128; 0; 0; 0; 0; 0; 0; 0; 0; 0; 0; 0].
Proof. reflexivity. Qed.

Example getWalletId_32_of_34 :
  fst (Double.run getWalletId
         [Ok (Double.bytes (map Z.of_nat (seq 105 32)) ++ Double.status)%list])
  = Ok "696a6b6c6d6e6f707172737475767778797a7b7c7d7e7f808182838485868788".
Proof. reflexivity. Qed.

Example hex_decode_stops :
  map Z_of_byte (Buffer_from_hex "1aG123") = [26] /\
  map Z_of_byte (Buffer_from_hex "1a7") = [26] /\
  map Z_of_byte (Buffer_from_hex "00FFff") = [0; 255; 255].
Proof. repeat split. Qed.

Example signMessage_460_bytes :
  let msg := replicate 445 "001"%byte in
  map (fun f => (p1 f, option_map len (data f)))
      (sent (snd (Double.run (signMessage "0" (toString_hex msg) false)
                             (replicate 4 (Ok Double.status)))))
  = [(0x00, Some 6); (0x01, Some 230); (0x01, Some 230); (0x81, Some 0)].
Proof. vm_compute. reflexivity. Qed.

Example signMessage_515_bytes :
  let msg := replicate 500 "001"%byte in
  map (fun f => (p1 f, option_map len (data f)))
      (sent (snd (Double.run (signMessage "0" (toString_hex msg) false)
                             (replicate 4 (Ok Double.status)))))
  = [(0x00, Some 6); (0x01, Some 230); (0x01, Some 230); (0x81, Some 55)].
Proof. vm_compute. reflexivity. Qed.

Lemma parses_0 : parses_to "0" [0].
Proof. split; [reflexivity|]. repeat constructor; unfold uint32; lia. Defined.

Lemma parses_ckb : parses_to "44'/144'/0'/0/0" [0x8000002C; 0x80000090; 0x80000000; 0; 0].
Proof. split; [reflexivity|]. repeat constructor; unfold uint32; lia. Defined.

Lemma parses_128 : parses_to "128 segments" (replicate 128 7).
Proof. split; [reflexivity|]. apply Forall_replicate. unfold uint32. lia. Defined.

Lemma signMessage_frames_witness :
  Double.run (signMessage "0" "00ff" true) [Ok []; Ok Double.key65]
  = (Ok (toString_hex (take 65 Double.key65)),
     Double.world []
       [mkAPDU 0x80 0x06 0x00 0x00 (Some (byte_of_Z 1 :: encoded_path [0]));
        mkAPDU 0x80 0x06 0x81 0x00
               (Some (Buffer_from "Nervos Message:" ++ Buffer_from_hex "00ff")%list)]).
Proof.
  destruct (signMessage_frames "0" "00ff" true [0] parses_0
              ltac:(vm_compute; discriminate))
    as (conts & final & _ & Hconts & _ & _ & Hcat & Hrun).
  destruct conts as [|c conts]; [|vm_compute in Hconts; discriminate Hconts].
  cbn [concat app] in Hcat. subst final.
  destruct (Hrun (Double.world [Ok []; Ok Double.key65] [])) as [Heq _].
  unfold Double.run. rewrite Heq. reflexivity.
Defined.

Lemma signMessageHash_two_exchanges_witness :
  Double.run (signMessageHash "0" "00ff") [Ok []; Ok Double.key65]
  = (Ok (toString_hex (take 65 Double.key65)),
     Double.world []
       [mkAPDU 0x80 0x07 0x00 0x00 (Some (encoded_path [0]));
        mkAPDU 0x80 0x07 0x80 0x00 (Some (Buffer_from_hex "00ff"))]).
Proof.
  apply (signMessageHash_two_exchanges "0" "00ff" [0]
           (Double.world [Ok []; Ok Double.key65] []) [] Double.key65 [Ok Double.key65] []
           parses_0 ltac:(vm_compute; discriminate) eq_refl eq_refl).
Defined.

Lemma signMessage_rejects_128_to_255_witness :
  128 <= len (replicate 128 7) <= 255 /\
  Double.run (signMessage "128 segments" "00ff" false) [Ok []]
  = (Throw ERR_OUT_OF_RANGE, Double.world [Ok []] []).
Proof.
  assert (Hlen : 128 <= len (replicate 128 7) <= 255)
    by (split; vm_compute; discriminate).
  split; [exact Hlen|].
  apply (signMessage_rejects_128_to_255 "128 segments" (replicate 128 7)
           parses_128 Hlen).
Defined.


Lemma key_length_not_validated_witness :
  (exists r : WalletPublicKey,
      Double.run (getWalletPublicKey "0" false)
                 [Ok (Double.bytes [3; 2; 7; 9; 0x90; 0x00])]
      = (Ok r, Double.world []
                 [mkAPDU 0x80 0x02 0x00 0x00 (Some (encoded_path [0]))]) /\
      publicKey r = "020709" /\
      lockArg r = "0207090709070907090709070907090709070907")
  /\ Double.run (getWalletPublicKey "0" false) [Ok (Double.bytes [1; 4])]
     = (Throw ERR_INVALID_ARG_VALUE,
        Double.world [] [mkAPDU 0x80 0x02 0x00 0x00 (Some (encoded_path [0]))]).
Proof.
  split.
  - destruct (key_length_not_validated "0" [0] false
                (Double.world [Ok (Double.bytes [3; 2; 7; 9; 0x90; 0x00])] [])
                (Double.bytes [3; 2; 7; 9; 0x90; 0x00]) []
                parses_0 ltac:(vm_compute; discriminate) eq_refl)
      as [Hlong _].
    destruct (Hlong ltac:(vm_compute; discriminate)) as [_ Hrun].
    eexists. unfold Double.run. rewrite Hrun.
    split; [reflexivity|]. split; reflexivity.
  - destruct (key_length_not_validated "0" [0] false
                (Double.world [Ok (Double.bytes [1; 4])] [])
                (Double.bytes [1; 4]) []
                parses_0 ltac:(vm_compute; discriminate) eq_refl)
      as [_ Hshort].
    apply Hshort. vm_compute. reflexivity.
Defined.

Lemma address_deterministic_witness :
  fst (Double.run (getWalletPublicKey "0" true)
                  [Ok (byte_of_Z 65 :: Double.key65 ++ Double.status)])
  = fst (Double.run (getWalletPublicKey "0" true)
                    [Ok (byte_of_Z 65 :: Double.key65 ++ Double.status); Ok []])
  /\ exists rT rM : WalletPublicKey,
       fst (Double.run (getWalletPublicKey "0" true)
                       [Ok (byte_of_Z 65 :: Double.key65 ++ Double.status)])
       = Ok rT /\
       fst (Double.run (getWalletPublicKey "0" false)
                       [Ok (byte_of_Z 65 :: Double.key65 ++ Double.status)])
       = Ok rM /\
       lockArg rT = lockArg rM /\
       exists words : list Z,
         bech32_encode bech32m "ckt" words BECH32_LIMIT = Ok (address rT) /\
         bech32_encode bech32m "ckb" words BECH32_LIMIT = Ok (address rM).
Proof.
  destruct (address_deterministic "0" [0] parses_0 ltac:(vm_compute; discriminate))
    as [Hsame Hnet].
  split.
  - apply (Hsame true
             (Double.world [Ok (byte_of_Z 65 :: Double.key65 ++ Double.status)] [])
             (Double.world [Ok (byte_of_Z 65 :: Double.key65 ++ Double.status); Ok []] [])
             (byte_of_Z 65 :: Double.key65 ++ Double.status) [] [Ok []]
             eq_refl eq_refl).
  - eexists. eexists.
    split; [vm_compute; reflexivity|]. split; [vm_compute; reflexivity|].
    apply (Hnet (Double.world [Ok (byte_of_Z 65 :: Double.key65 ++ Double.status)] []));
      vm_compute; reflexivity.
Defined.

Lemma lockArg_depends_on_X_and_parity_witness :
  Double.key65 <> Double.key65' /\
  mapR (fun r => (lockArg r, address r))
       (fst (Double.run (getWalletPublicKey "0" false)
                        [Ok (byte_of_Z 65 :: Double.key65 ++ Double.status)]))
  = mapR (fun r => (lockArg r, address r))
         (fst (Double.run (getWalletPublicKey "0" false)
                          [Ok (byte_of_Z 65 :: Double.key65' ++ [])])).
Proof.
  split; [vm_compute; discriminate|].
  apply (lockArg_depends_on_X_and_parity "0" [0] false
           (Double.world [Ok (byte_of_Z 65 :: Double.key65 ++ Double.status)] [])
           (Double.world [Ok (byte_of_Z 65 :: Double.key65' ++ [])] [])
           Double.key65 Double.key65' Double.status [] [] []
           parses_0 ltac:(vm_compute; discriminate)
           eq_refl eq_refl eq_refl eq_refl eq_refl eq_refl).
Defined.

Lemma responses_not_length_checked_witness :
  Double.run getWalletId [Ok (Double.bytes [1; 2; 255])]
  = (Ok (toString_hex (take 32 (Double.bytes [1; 2; 255]))),
     Double.world [] [mkAPDU 0x80 0x01 0x00 0x00 None])
  /\ exists r : WalletExtendedPublicKey,
       fst (Double.run (getWalletExtendedPublicKey "0") [Ok (Double.bytes [2; 10])])
       = Ok r.
Proof.
  destruct responses_not_length_checked as [Hid Hext]. split.
  - apply (Hid (Double.world [Ok (Double.bytes [1; 2; 255])] [])
               (Double.bytes [1; 2; 255]) [] eq_refl).
  - eexists. unfold Double.run.
    rewrite (Hext "0" [0] (Double.world [Ok (Double.bytes [2; 10])] [])
                  (Double.bytes [2; 10]) []
                  parses_0 ltac:(vm_compute; discriminate) eq_refl).
    reflexivity.
Defined.

Lemma getAppConfiguration_replies_witness :
  exists cfg : AppConfiguration,
    fst (Double.run getAppConfiguration
           [Ok (map byte_of_Z [1; 0; 3]);
            Ok (Double.bytes (replicate 26 97 ++ [0x00; 0x90; 0x00]))])
    = Ok cfg /\
    version cfg = "1.0.3" /\
    String.length (hash cfg) = 26%nat.
Proof.
  destruct (getAppConfiguration_replies
              (Double.world [Ok (map byte_of_Z [1; 0; 3]);
                        Ok (Double.bytes (replicate 26 97 ++ [0x00; 0x90; 0x00]))] [])
              (map byte_of_Z [1; 0; 3])
              (Double.bytes (replicate 26 97 ++ [0x00; 0x90; 0x00]))
              [Ok (Double.bytes (replicate 26 97 ++ [0x00; 0x90; 0x00]))] []
              eq_refl eq_refl)
    as (cfg & Hrun & _ & Hv & _ & _ & _ & H29).
  exists cfg. unfold Double.run. rewrite Hrun.
  split; [reflexivity|]. split; [exact (Hv eq_refl) | exact (H29 eq_refl)].
Defined.

(** *** Where the running code departs from the specification *)

(** C2: a wallet-id reply of 3 bytes, and an extended-key reply that
    announces 2 key bytes and holds 1, are answered with what is there. *)
Lemma short_replies_are_returned :
  len (Double.bytes [1; 2; 3]) < 32 /\
  fst (Double.run getWalletId [Ok (Double.bytes [1; 2; 3])]) = Ok "010203" /\
  fst (Double.run (getWalletExtendedPublicKey "0") [Ok (Double.bytes [2; 10])])
  = Ok {| public_key := "0a"; chain_code := EmptyString |}.
Proof. repeat split; vm_compute; reflexivity. Qed.

(** C3: a reply with a 33-byte key is turned into an address. *)
Lemma key_of_33_bytes_is_accepted :
  exists r : WalletPublicKey,
    fst (Double.run (getWalletPublicKey "0" false)
           [Ok (Double.bytes (33 :: 3 :: map Z.of_nat (seq 1 32)))])
    = Ok r /\
    String.length (publicKey r) = (2 * 33)%nat /\
    String.length (lockArg r) = (2 * 20)%nat /\
    address r <> EmptyString.
Proof.
  eexists. split; [vm_compute; reflexivity|].
  repeat split; vm_compute; congruence.
Qed.

(** C7: 29 bytes followed by 0x00, 0x90, 0x00 give a hash of 29
    characters, not 26. *)
Lemma hash_of_29_bytes_and_status :
  exists cfg : AppConfiguration,
    fst (Double.run getAppConfiguration
           [Ok (Double.bytes [1; 0; 3]);
            Ok (Double.bytes (replicate 29 97 ++ [0x00; 0x90; 0x00]))])
    = Ok cfg /\
    version cfg = "1.0.3" /\
    String.length (hash cfg) = 29%nat /\
    String.length (hash cfg) <> 26%nat.
Proof.
  eexists. split; [vm_compute; reflexivity|].
  repeat split; vm_compute; congruence.
Qed.

End Concrete.

(* ================================================================== *)
(** ** More on paths *)

Lemma uint32_dec (v : Z) : {uint32 v} + {~ uint32 v}.
Proof.
  unfold uint32. destruct (Z_le_dec 0 v), (Z_le_dec v 0xffffffff);
    [left | right | right | right]; lia.
Qed.

Lemma writeUInt32BE_bad_value (buf : Buffer) (v offset : Z) :
  ~ uint32 v -> writeUInt32BE buf v offset = Throw ERR_OUT_OF_RANGE.
Proof.
  intros Hv. unfold writeUInt32BE, uint32 in *.
  now replace ((v >? 4294967295) || (v <? 0)) with true by lia.
Qed.

(** A segment that is not an unsigned 32-bit value stops the loop with
    a range error, the segments before it having been written. *)
Lemma forEach_bad_segment (base : Z) (segments : list Z) :
  forall (pre post : Buffer) (index : Z),
    Exists (fun v => ~ uint32 v) segments ->
    len pre = base + index * 4 ->
    forEach (fun segment index data => writeUInt32BE data segment (base + index * 4))
            segments index
            (pre ++ replicate (4 * length segments) "000"%byte ++ post)
    = Throw ERR_OUT_OF_RANGE.
Proof.
  induction segments as [|v segments IH]; intros pre post index Hbad Hlen.
  - inversion Hbad.
  - cbn [forEach].
    destruct (uint32_dec v) as [Hv|Hv].
    + replace (4 * length (v :: segments))%nat with (4 + 4 * length segments)%nat
        by (simpl; lia).
      rewrite replicate_add, <- (app_assoc (replicate 4 _)).
      rewrite writeUInt32BE_zeros by (auto; lia).
      cbn [bindR]. rewrite (app_assoc pre (be32 v)). apply IH.
      * apply Exists_cons in Hbad as [Hbad|Hbad]; [contradiction|exact Hbad].
      * rewrite len_app. unfold be32, len at 2. simpl. lia.
    + now rewrite writeUInt32BE_bad_value.
Qed.

Lemma Forall_or_Exists_uint32 (segments : list Z) :
  Forall uint32 segments \/ Exists (fun v => ~ uint32 v) segments.
Proof.
  induction segments as [|v segments [IH|IH]].
  - left. constructor.
  - destruct (uint32_dec v); [left | right]; now constructor.
  - right. now apply Exists_cons_tl.
Qed.

Lemma be32_inj (v1 v2 : Z) : uint32 v1 -> uint32 v2 -> be32 v1 = be32 v2 -> v1 = v2.
Proof.
  intros H1 H2 E. rewrite <- (be_value_be32 v1 H1), <- (be_value_be32 v2 H2).
  now rewrite E.
Qed.

Lemma flat_map_be32_inj (s1 : list Z) :
  forall s2 : list Z,
    Forall uint32 s1 -> Forall uint32 s2 ->
    flat_map be32 s1 = flat_map be32 s2 -> s1 = s2.
Proof.
  induction s1 as [|v1 s1 IH]; intros [|v2 s2] H1 H2 E;
    try reflexivity; try discriminate E.
  apply Forall_cons in H1 as [Hv1 H1]. apply Forall_cons in H2 as [Hv2 H2].
  cbn [flat_map] in E. apply app_inj_1 in E as [Ev E]; [|reflexivity].
  f_equal; [now apply be32_inj | now apply IH].
Qed.

Section MorePaths.
Context `{Transport} `{Packages}.

Lemma pathToBuffer_bad_segment (path : string) (segments : list Z) :
  BIPPath_fromString path = Ok segments ->
  Exists (fun v => ~ uint32 v) segments ->
  pathToBuffer path = Throw ERR_OUT_OF_RANGE.
Proof.
  intros Hp Hbad. unfold pathToBuffer. rewrite Hp. cbn [bindR].
  pose proof (len_nonneg segments).
  destruct (Z_le_dec (len segments) 255) as [Hn|Hn].
  - rewrite Buffer_alloc_cons, Buffer_alloc_segments by lia.
    unfold writeUInt8. rewrite writeU_Int8_ok by (unfold len in *; simpl; lia).
    cbn [bindR]. change (Z.to_nat 0) with O. cbn [insert list_insert].
    pose proof (forEach_bad_segment 1 segments [byte_of_Z (len segments)] [] 0 Hbad)
      as Hw.
    rewrite !app_nil_r in Hw. apply Hw. reflexivity.
  - unfold writeUInt8. rewrite writeU_Int8_throw by lia. reflexivity.
Qed.

(** X1. [getWalletExtendedPublicKey] carries its own copy of the path
    encoder; it agrees with [pathToBuffer] on every path: the same
    exception with nothing sent where [pathToBuffer] throws, and one
    frame with the buffer of [pathToBuffer] where it returns. *)
Theorem extended_key_encoder_is_pathToBuffer (path : string) (w : World) :
  match pathToBuffer path with
  | Throw e => getWalletExtendedPublicKey path w = (Throw e, w)
  | Ok pathBuf =>
      sent (snd (getWalletExtendedPublicKey path w))
      = sent w ++ [mkAPDU 0x80 0x04 0x00 0x00 (Some pathBuf)]
  end.
Proof.
  unfold pathToBuffer, getWalletExtendedPublicKey. cbv zeta.
  destruct (BIPPath_fromString path) as [segments|e]; [|reflexivity].
  cbn [bindR]. rewrite bind_lift_ok.
  set (r1 := writeUInt8 (Buffer_alloc (1 + len segments * 4)) (len segments) 0).
  destruct r1 as [b|e]; [|reflexivity].
  cbn [bindR]. rewrite bind_lift_ok.
  set (r2 := forEach _ segments 0 b).
  destruct r2 as [pathBuf|e]; [|reflexivity].
  rewrite bind_lift_ok.
  unfold bindM, transport_send.
  now destruct (exchange _ _) as [[r|e] d].
Qed.

(** X2. [pathToBuffer] returns a buffer exactly for the paths that parse
    to at most 255 segments, each an unsigned 32-bit value. *)
Theorem pathToBuffer_succeeds_iff (path : string) :
  (exists buf : Buffer, pathToBuffer path = Ok buf)
  <-> (exists segments : list Z,
          BIPPath_fromString path = Ok segments /\
          len segments <= 255 /\ Forall uint32 segments).
Proof.
  split.
  - intros [buf Hbuf].
    destruct (BIPPath_fromString path) as [segments|e] eqn:Hp.
    + exists segments. split; [reflexivity|].
      destruct (Z_le_dec (len segments) 255) as [Hn|Hn].
      * split; [exact Hn|].
        destruct (Forall_or_Exists_uint32 segments) as [Hall|Hbad]; [exact Hall|].
        rewrite (pathToBuffer_bad_segment _ _ Hp Hbad) in Hbuf. discriminate Hbuf.
      * rewrite (pathToBuffer_too_long _ _ Hp) in Hbuf by lia. discriminate Hbuf.
    + rewrite (pathToBuffer_parse_error _ _ Hp) in Hbuf. discriminate Hbuf.
  - intros (segments & Hp & Hn & Hall). exists (encoded_path segments).
    apply pathToBuffer_encoded; [split|]; assumption.
Qed.

(** X4. The encoding keeps paths apart: two paths that parse, to at most
    255 unsigned 32-bit segments each, and are encoded as the same
    buffer have the same segments. *)
Theorem path_encoding_injective (path1 path2 : string) (s1 s2 : list Z) :
  parses_to path1 s1 -> parses_to path2 s2 ->
  len s1 <= 255 -> len s2 <= 255 ->
  pathToBuffer path1 = pathToBuffer path2 ->
  s1 = s2.
Proof.
  intros Hp1 Hp2 Hn1 Hn2 E.
  rewrite (pathToBuffer_encoded _ _ Hp1 Hn1), (pathToBuffer_encoded _ _ Hp2 Hn2) in E.
  injection E as _ E.
  destruct Hp1 as [_ H1], Hp2 as [_ H2]. now apply flat_map_be32_inj.
Qed.

End MorePaths.

(* ================================================================== *)
(** ** What goes over the wire *)

Lemma len_slice_window (buf : Buffer) (a : Z) :
  0 <= a -> len (slice buf (Num a) (Num (a + 230))) <= 230.
Proof.
  intros Ha. rewrite slice_range by lia. unfold len. rewrite length_take. lia.
Qed.

Section Wire.
Context `{Transport} `{Packages}.

Lemma sends_only_ret {A} (P : APDU -> Prop) (a : A) : sends_only P (ret a).
Proof.
  intros w. exists []. cbn [ret snd]. rewrite app_nil_r. now split.
Qed.

Lemma sends_only_send (P : APDU -> Prop) (c i p q : Z) (dt : option Buffer) :
  P (mkAPDU c i p q dt) -> sends_only P (transport_send c i p q dt).
Proof.
  intros HP w. exists [mkAPDU c i p q dt]. unfold transport_send.
  destruct (exchange _ _) as [r d]. cbn [snd sent]. split; [reflexivity|].
  now constructor.
Qed.

Lemma sends_only_bind {A B} (P : APDU -> Prop) (m : M A) (k : A -> M B) :
  sends_only P m -> (forall a, sends_only P (k a)) -> sends_only P (bindM m k).
Proof.
  intros Hm Hk w. destruct (Hm w) as (f1 & H1 & HP1). unfold bindM.
  destruct (m w) as [[a|e] w1]; cbn [snd] in H1.
  - destruct (Hk a w1) as (f2 & H2 & HP2). exists (f1 ++ f2).
    rewrite H2, H1, app_assoc. split; [reflexivity|]. now apply Forall_app.
  - exists f1. now split.
Qed.

Lemma sends_only_bind_lift {A B} (P : APDU -> Prop) (r : Result A) (k : A -> M B) :
  (forall a, r = Ok a -> sends_only P (k a)) -> sends_only P (bindM (liftR r) k).
Proof.
  intros Hk w. destruct r as [a|e].
  - rewrite bind_lift_ok. now apply Hk.
  - rewrite bind_lift_throw. exists []. cbn [snd]. rewrite app_nil_r. now split.
Qed.

Lemma sends_only_for_loop (P : APDU -> Prop) (body : Z -> M unit) (n : nat) :
  forall i : Z,
    (forall j, i <= j -> sends_only P (body j)) ->
    sends_only P (for_loop n i body).
Proof.
  induction n as [|n IH]; intros i Hbody; cbn [for_loop].
  - apply sends_only_ret.
  - apply sends_only_bind; [apply Hbody; lia|].
    intros _. apply IH. intros j Hj. apply Hbody. lia.
Qed.

Lemma sends_only_weaken {A} (P Q : APDU -> Prop) (m : M A) :
  (forall f, P f -> Q f) -> sends_only P m -> sends_only Q m.
Proof.
  intros HPQ Hm w. destruct (Hm w) as (fs & Hs & HP). exists fs.
  split; [exact Hs|]. eapply Forall_impl; eauto.
Qed.

Lemma signMessage_bounded (path rawMsgHex : string) (displayHex : bool) :
  sends_only message_frame (signMessage path rawMsgHex displayHex).
Proof.
  unfold signMessage. cbv zeta.
  apply sends_only_bind_lift. intros bipPath _.
  apply sends_only_bind_lift. intros rawPath1 _.
  apply sends_only_bind_lift. intros rawPath2 _.
  apply sends_only_bind_lift. intros rawPath _.
  set (rawMsg := Buffer_concat _).
  assert (Hq : 0 <= len rawMsg / 230)
    by (apply Z.div_pos; [apply len_nonneg | lia]).
  apply sends_only_bind.
  { apply sends_only_send. unfold message_frame, wire. cbn [cla ins p1 p2 data In]. tauto. }
  intros _. apply sends_only_bind.
  { apply sends_only_for_loop. intros j Hj. apply sends_only_bind.
    - apply sends_only_send. unfold message_frame, wire. cbn [cla ins p1 p2 data In].
      split; [tauto|]. right. split; [tauto|]. eexists. split; [reflexivity|].
      replace ((j + 1) * 230) with (j * 230 + 230) by lia.
      apply len_slice_window. lia.
    - intros _. apply sends_only_ret. }
  intros _. apply sends_only_bind.
  { apply sends_only_send. unfold message_frame, wire. cbn [cla ins p1 p2 data In].
    split; [tauto|]. right. split; [tauto|]. eexists. split; [reflexivity|].
    apply len_slice_window. lia. }
  intros response. apply sends_only_ret.
Qed.

(** X6. Whatever the path, the message, the flag and the device,
    [signMessage] only adds frames, each with class 0x80, instruction
    0x06 and P2 0x00; a frame with P1 other than 0x00 has P1 0x01 or 0x81
    and carries at most 230 bytes. *)
Theorem signMessage_frames_bounded (path rawMsgHex : string) (displayHex : bool)
    (w : World) :
  exists frames : list APDU,
    sent (snd (signMessage path rawMsgHex displayHex w)) = sent w ++ frames /\
    Forall (fun f =>
              cla f = 0x80 /\ ins f = 0x06 /\ p2 f = 0x00 /\
              (p1 f = 0x00 \/
               ((p1 f = 0x01 \/ p1 f = 0x81) /\
                exists d : Buffer, data f = Some d /\ len d <= 230)))
           frames.
Proof.
  destruct (signMessage_bounded path rawMsgHex displayHex w) as (frames & Hs & HP).
  exists frames. split; [exact Hs|].
  eapply Forall_impl; [exact HP|].
  intros f [(Hc & Hp2 & [Hi|[]]) Hrest]. auto.
Qed.

(** X5. Every frame an operation sends has class byte 0x80, P2 0x00 and
    an instruction byte of that operation: 0x00 or 0x09 for the
    configuration, 0x01 for the wallet id, 0x02 for the public key, 0x04
    for the extended key, 0x06 for a message, 0x07 for a digest.  This
    holds for every input and every behaviour of the device, and frames
    are only ever added to those sent. *)
Theorem frames_wire_format :
  sends_only (wire [0x00; 0x09]) getAppConfiguration /\
  sends_only (wire [0x01]) getWalletId /\
  (forall path testnet, sends_only (wire [0x02]) (getWalletPublicKey path testnet)) /\
  (forall path, sends_only (wire [0x04]) (getWalletExtendedPublicKey path)) /\
  (forall path rawMsgHex displayHex,
      sends_only (wire [0x06]) (signMessage path rawMsgHex displayHex)) /\
  (forall path rawMsgHex, sends_only (wire [0x07]) (signMessageHash path rawMsgHex)).
Proof.
  assert (Hsend : forall (inss : list Z) (i p : Z) (dt : option Buffer),
             In i inss -> sends_only (wire inss) (transport_send 0x80 i p 0x00 dt)).
  { intros inss i p dt Hi. apply sends_only_send. now repeat split. }
  split; [|split; [|split; [|split; [|split]]]].
  - unfold getAppConfiguration.
    apply sends_only_bind; [apply Hsend; cbn; tauto|]. intros response1.
    apply sends_only_bind; [apply Hsend; cbn; tauto|]. intros response2.
    apply sends_only_ret.
  - unfold getWalletId.
    apply sends_only_bind; [apply Hsend; cbn; tauto|]. intros response.
    apply sends_only_ret.
  - intros path testnet. unfold getWalletPublicKey. cbv zeta.
    apply sends_only_bind_lift. intros pathBuf _.
    apply sends_only_bind; [apply Hsend; cbn; tauto|]. intros response.
    apply sends_only_bind_lift. intros c1 _.
    apply sends_only_bind_lift. intros c2 _.
    apply sends_only_bind_lift. intros addr _.
    apply sends_only_ret.
  - intros path. unfold getWalletExtendedPublicKey. cbv zeta.
    apply sends_only_bind_lift. intros bipPath _.
    apply sends_only_bind_lift. intros d1 _.
    apply sends_only_bind_lift. intros d2 _.
    apply sends_only_bind; [apply Hsend; cbn; tauto|]. intros response.
    apply sends_only_ret.
  - intros path rawMsgHex displayHex.
    apply (sends_only_weaken message_frame); [|apply signMessage_bounded].
    now intros f [Hw _].
  - intros path rawMsgHex. unfold signMessageHash. cbv zeta.
    apply sends_only_bind_lift. intros pathBuf _.
    apply sends_only_bind; [apply Hsend; cbn; tauto|]. intros _.
    apply sends_only_bind; [apply Hsend; cbn; tauto|]. intros response.
    apply sends_only_ret.
Qed.

End Wire.

(* ================================================================== *)
(** ** Refusals and replies *)

Section Refusals.
Context `{Transport} `{Packages}.

Lemma exchange_all_app (pre post : list APDU) :
  forall w : World,
    exchange_all (pre ++ post) w
    = match exchange_all pre w with
      | (Ok rs, w1) =>
          match exchange_all post w1 with
          | (Ok rs', w2) => (Ok (rs ++ rs'), w2)
          | (Throw e, w2) => (Throw e, w2)
          end
      | (Throw e, w1) => (Throw e, w1)
      end.
Proof.
  induction pre as [|f pre IH]; intros w.
  - cbn [app exchange_all]. unfold ret.
    now destruct (exchange_all post w) as [[rs'|e] w2].
  - cbn [app exchange_all]. destruct f as [c i p q dt]. cbn [cla ins p1 p2 data].
    rewrite !bind_send. destruct (exchange _ _) as [[r|e] d]; [|reflexivity].
    unfold bindM, ret. rewrite IH.
    destruct (exchange_all pre _) as [[rs|e] w1]; [|reflexivity].
    now destruct (exchange_all post w1) as [[rs'|e] w2].
Qed.

(** [signMessage] on a path it accepts is the exchange of its frames. *)
Lemma signMessage_as_frames (path rawMsgHex : string) (displayHex : bool)
    (segments : list Z) (w : World) :
  parses_to path segments -> len segments <= 127 ->
  signMessage path rawMsgHex displayHex w
  = (let (r, w') :=
       exchange_all
         (message_frames
            (byte_of_Z (if displayHex then 1 else 0) :: encoded_path segments)
            (Buffer_from "Nervos Message:" ++ Buffer_from_hex rawMsgHex)) w in
     (mapR signature_of r, w')).
Proof.
  intros [Hp Hall] Hn. unfold signMessage. cbv zeta. rewrite Hp, bind_lift_ok.
  rewrite signMessage_init by assumption.
  unfold Buffer_concat. cbn [concat]. rewrite app_nil_r.
  set (payload := Buffer_from "Nervos Message:" ++ Buffer_from_hex rawMsgHex).
  set (g := fun response : Buffer => toString_hex (slice response (Num 0) (Num 65))).
  transitivity
    (let (r, w') := exchange_all (message_frames
            (byte_of_Z (if displayHex then 1 else 0) :: encoded_path segments)
            payload) w in
     (mapR (fun rs => g (List.last rs [])) r, w')).
  - unfold message_frames.
    etransitivity; [|symmetry; apply (exchange_all_cons_last g);
                     intros E; apply app_eq_nil in E as [_ E]; discriminate E].
    cbn [cla ins p1 p2 data]. rewrite !bind_send.
    destruct (exchange _ _) as [[r|e] d]; [|reflexivity].
    apply (loop_then_final g payload).
  - destruct (exchange_all _ w) as [[rs|e] w']; [|reflexivity].
    cbn [mapR bindR]. unfold g, signature_of. now rewrite slice_first by lia.
Qed.

(** X7. When the device refuses a frame of [signMessage], the frames
    before it having been answered, the operation throws what the
    transport threw and has sent the frames up to the refused one and
    none after it. *)
Theorem signMessage_stops_at_refused_frame (path rawMsgHex : string)
    (displayHex : bool) (segments : list Z) (w w1 : World)
    (pre post : list APDU) (f : APDU) (rs : list Buffer) (e : Exn) (d : Device) :
  parses_to path segments -> len segments <= 127 ->
  message_frames
    (byte_of_Z (if displayHex then 1 else 0) :: encoded_path segments)
    (Buffer_from "Nervos Message:" ++ Buffer_from_hex rawMsgHex)
  = pre ++ f :: post ->
  exchange_all pre w = (Ok rs, w1) ->
  exchange (device w1) f = (Throw e, d) ->
  signMessage path rawMsgHex displayHex w
  = (Throw e, mkWorld d (sent w ++ pre ++ [f])).
Proof.
  intros Hparse Hn Hframes Hpre Hf.
  rewrite (signMessage_as_frames _ _ _ _ _ Hparse Hn), Hframes.
  rewrite exchange_all_app, Hpre. cbn [exchange_all].
  destruct f as [c i p q dt]. cbn [cla ins p1 p2 data].
  rewrite bind_send, Hf. cbn [mapR bindR].
  destruct (exchange_all_sent _ _ _ _ Hpre) as (k & Hs & _ & _ & Hok).
  destruct (Hok rs eq_refl) as [-> _]. rewrite firstn_all in Hs.
  now rewrite Hs, <- app_assoc.
Qed.

(** X8. [signMessageHash] stops at the first refusal: if the init frame
    is refused the digest is never sent, and either refusal comes back
    as the exception of the transport. *)
Theorem signMessageHash_stops_at_refusal (path rawMsgHex : string)
    (segments : list Z) (w : World) :
  parses_to path segments -> len segments <= 255 ->
  let init := mkAPDU 0x80 0x07 0x00 0x00 (Some (encoded_path segments)) in
  let final := mkAPDU 0x80 0x07 0x80 0x00 (Some (Buffer_from_hex rawMsgHex)) in
  (forall e d,
      exchange (device w) init = (Throw e, d) ->
      signMessageHash path rawMsgHex w = (Throw e, mkWorld d (sent w ++ [init])))
  /\ (forall r1 d1 e d2,
         exchange (device w) init = (Ok r1, d1) ->
         exchange d1 final = (Throw e, d2) ->
         signMessageHash path rawMsgHex w
         = (Throw e, mkWorld d2 (sent w ++ [init; final]))).
Proof.
  intros Hparse Hn init final.
  assert (Hrun : signMessageHash path rawMsgHex w
                 = bindM (transport_send 0x80 0x07 0x00 0x00 (Some (encoded_path segments)))
                     (fun _ =>
                        bindM (transport_send 0x80 0x07 0x80 0x00
                                 (Some (Buffer_from_hex rawMsgHex)))
                              (fun response =>
                                 ret (toString_hex (slice response (Num 0) (Num 65))))) w).
  { unfold signMessageHash. cbv zeta.
    now rewrite (pathToBuffer_encoded _ _ Hparse Hn), bind_lift_ok. }
  rewrite Hrun, bind_send. fold init. split.
  - intros e d E. now rewrite E.
  - intros r1 d1 e d2 E1 E2. rewrite E1, bind_send. cbn [device sent].
    fold final. rewrite E2. now rewrite <- app_assoc.
Qed.

(** X9. [getAppConfiguration] stops at the first refusal: if the version
    request is refused the hash request is not sent, and either refusal
    comes back as the exception of the transport. *)
Theorem getAppConfiguration_stops_at_refusal (w : World) :
  let f1 := mkAPDU 0x80 0x00 0x00 0x00 None in
  let f2 := mkAPDU 0x80 0x09 0x00 0x00 None in
  (forall e d,
      exchange (device w) f1 = (Throw e, d) ->
      getAppConfiguration w = (Throw e, mkWorld d (sent w ++ [f1])))
  /\ (forall r1 d1 e d2,
         exchange (device w) f1 = (Ok r1, d1) ->
         exchange d1 f2 = (Throw e, d2) ->
         getAppConfiguration w = (Throw e, mkWorld d2 (sent w ++ [f1; f2]))).
Proof.
  intros f1 f2. unfold getAppConfiguration. rewrite bind_send. fold f1. split.
  - intros e d E. now rewrite E.
  - intros r1 d1 e d2 E1 E2. rewrite E1, bind_send. cbn [device sent].
    fold f2. rewrite E2. now rewrite <- app_assoc.
Qed.

(** [getWalletExtendedPublicKey] once the path is encoded. *)
Lemma extended_key_after_path (path : string) (pathBuf : Buffer) (w : World) :
  pathToBuffer path = Ok pathBuf ->
  getWalletExtendedPublicKey path w
  = bindM (transport_send 0x80 0x04 0x00 0x00 (Some pathBuf))
      (fun response =>
         let publicKeyLength := ToNumber (Buffer_get response (Num 0)) in
         let chainCodeOffset := js_add (Num 2) publicKeyLength in
         let chainCodeLength :=
           ToNumber (Buffer_get response (js_add (Num 1) publicKeyLength)) in
         ret {| public_key :=
                  toString_hex (slice response (Num 1) (js_add (Num 1) publicKeyLength));
                chain_code :=
                  toString_hex (slice response chainCodeOffset
                                      (js_add chainCodeOffset chainCodeLength)) |}) w.
Proof.
  unfold pathToBuffer, getWalletExtendedPublicKey. cbv zeta.
  destruct (BIPPath_fromString path) as [segments|e]; [|discriminate].
  cbn [bindR]. rewrite bind_lift_ok.
  set (r1 := writeUInt8 (Buffer_alloc (1 + len segments * 4)) (len segments) 0).
  destruct r1 as [b|e]; [|discriminate].
  cbn [bindR]. rewrite bind_lift_ok.
  set (r2 := forEach _ segments 0 b).
  destruct r2 as [buf|e]; [|discriminate].
  intros [= ->]. now rewrite bind_lift_ok.
Qed.

(** X10. Once the path is encoded, the three key queries make exactly
    one exchange whatever the device answers, and a refusal comes back
    as the exception of the transport. *)
Theorem key_queries_make_one_exchange :
  (forall w : World,
      let f := mkAPDU 0x80 0x01 0x00 0x00 None in
      sent (snd (getWalletId w)) = sent w ++ [f] /\
      forall e d, exchange (device w) f = (Throw e, d) ->
                  getWalletId w = (Throw e, mkWorld d (sent w ++ [f])))
  /\ (forall (path : string) (pathBuf : Buffer) (testnet : bool) (w : World),
         pathToBuffer path = Ok pathBuf ->
         let f := mkAPDU 0x80 0x02 0x00 0x00 (Some pathBuf) in
         sent (snd (getWalletPublicKey path testnet w)) = sent w ++ [f] /\
         forall e d, exchange (device w) f = (Throw e, d) ->
                     getWalletPublicKey path testnet w
                     = (Throw e, mkWorld d (sent w ++ [f])))
  /\ (forall (path : string) (pathBuf : Buffer) (w : World),
         pathToBuffer path = Ok pathBuf ->
         let f := mkAPDU 0x80 0x04 0x00 0x00 (Some pathBuf) in
         sent (snd (getWalletExtendedPublicKey path w)) = sent w ++ [f] /\
         forall e d, exchange (device w) f = (Throw e, d) ->
                     getWalletExtendedPublicKey path w
                     = (Throw e, mkWorld d (sent w ++ [f]))).
Proof.
  split; [|split].
  - intros w f. unfold getWalletId. rewrite bind_send. fold f. split.
    + now destruct (exchange _ _) as [[r|e] d].
    + intros e d E. now rewrite E.
  - intros path pathBuf testnet w Hbuf f.
    rewrite getWalletPublicKey_derive, Hbuf. cbv zeta. fold f. split.
    + now destruct (exchange _ _) as [[r|e] d].
    + intros e d E. now rewrite E.
  - intros path pathBuf w Hbuf f.
    rewrite (extended_key_after_path _ _ _ Hbuf), bind_send. fold f. split.
    + now destruct (exchange _ _) as [[r|e] d].
    + intros e d E. now rewrite E.
Qed.

End Refusals.

(* ================================================================== *)
(** ** Reading replies and hex text *)

Lemma key_field (l : byte) (key trailer : Buffer) :
  len key = Z_of_byte l ->
  slice (l :: key ++ trailer) (Num 1)
        (js_add (Num 1) (ToNumber (Buffer_get (l :: key ++ trailer) (Num 0))))
  = key.
Proof.
  intros Hk. unfold Buffer_get. change (0 <? 0) with false.
  change (Z.to_nat 0) with O. cbn [lookup list_lookup ToNumber js_add].
  pose proof (Z_of_byte_range l).
  rewrite slice_range by lia. change (Z.to_nat 1) with 1%nat. cbn [drop].
  apply take_app_length'. unfold len in Hk. lia.
Qed.

Lemma list_ascii_of_string_app (s1 s2 : string) :
  list_ascii_of_string (s1 ++ s2)
  = list_ascii_of_string s1 ++ list_ascii_of_string s2.
Proof. induction s1 as [|c s1 IH]; [reflexivity|]. cbn. now rewrite IH. Qed.

Lemma length_list_ascii_of_string (s : string) :
  length (list_ascii_of_string s) = String.length s.
Proof. induction s as [|c s IH]; [reflexivity|]. cbn. now rewrite IH. Qed.

Lemma string_of_list_ascii_app (l k : list ascii) :
  string_of_list_ascii (l ++ k)
  = (string_of_list_ascii l ++ string_of_list_ascii k)%string.
Proof. induction l as [|c l IH]; [reflexivity|]. cbn. now rewrite IH. Qed.

(** Pairs of hex digits decode to one byte each, and decoding goes on
    after them. *)
Lemma hex_decode_pairs (n : nat) :
  forall good junk : list ascii,
    (length good <= n)%nat -> hex_pairs good = true ->
    hex_decode (good ++ junk) = hex_decode good ++ hex_decode junk /\
    (2 * length (hex_decode good))%nat = length good.
Proof.
  induction n as [|n IH]; intros [|a [|b rest]] junk Hn Hg;
    cbn [length] in Hn; try lia; try discriminate Hg; try (now split).
  cbn [hex_pairs] in Hg. unfold is_hex_digit in Hg.
  destruct (unhex a) as [x|] eqn:Ea; [|discriminate Hg].
  destruct (unhex b) as [y|] eqn:Eb; [|discriminate Hg].
  cbn [andb] in Hg. cbn [app hex_decode]. rewrite Ea, Eb.
  destruct (IH rest junk ltac:(lia) Hg) as [Happ Hlen].
  rewrite Happ. split; [reflexivity|]. cbn [length]. lia.
Qed.

(** Where the text does not go on with two hex digits, decoding stops. *)
Lemma hex_decode_no_pair (junk : list ascii) :
  starts_with_hex_pair junk = false -> hex_decode junk = [].
Proof.
  destruct junk as [|a [|b rest]]; try reflexivity.
  unfold starts_with_hex_pair, is_hex_digit. cbn [hex_decode].
  destruct (unhex a), (unhex b); cbn [andb]; try discriminate; reflexivity.
Qed.

(** Every text is pairs of hex digits followed by a rest that does not
    begin with such a pair. *)
Lemma hex_split (n : nat) :
  forall s : list ascii,
    (length s <= n)%nat ->
    exists good junk : list ascii,
      s = good ++ junk /\ hex_pairs good = true /\
      starts_with_hex_pair junk = false.
Proof.
  induction n as [|n IH]; intros s Hn;
    destruct (starts_with_hex_pair s) eqn:E;
    try (exists [], s; now repeat split);
    destruct s as [|a [|b rest]]; try discriminate E; cbn [length] in Hn; try lia.
  destruct (IH rest ltac:(lia)) as (good & junk & -> & Hg & Hj).
  exists (a :: b :: good), junk. split; [reflexivity|]. split; [|exact Hj].
  cbn [hex_pairs]. cbn [starts_with_hex_pair] in E. now rewrite E.
Qed.

Section Replies.
Context `{Transport} `{Packages}.

(** [getAppConfiguration] when both requests are answered. *)
Lemma getAppConfiguration_run (w : World) (r1 r2 : Buffer) (d1 d2 : Device) :
  let f1 := mkAPDU 0x80 0x00 0x00 0x00 None in
  let f2 := mkAPDU 0x80 0x09 0x00 0x00 None in
  exchange (device w) f1 = (Ok r1, d1) ->
  exchange d1 f2 = (Ok r2, d2) ->
  getAppConfiguration w
  = (Ok {| version :=
             (js_string_of (r1 !! 0%nat) ++ "." ++ js_string_of (r1 !! 1%nat)
                ++ "." ++ js_string_of (r1 !! 2%nat))%string;
           hash := toString_latin1 (take (length r2 - 3) r2) |},
     mkWorld d2 (sent w ++ [f1; f2])).
Proof.
  intros f1 f2 E1 E2. unfold getAppConfiguration. rewrite bind_send. fold f1.
  rewrite E1, bind_send. cbn [device sent]. fold f2. rewrite E2. unfold ret.
  rewrite (slice_drop_last r2 (-3)) by lia. change (Z.to_nat (- -3)) with 3%nat.
  now rewrite <- app_assoc.
Qed.

(** X11. A reply to the extended-key query laid out as length byte, key,
    length byte, chain code, anything after, with both fields as long as
    announced, is read back as the hex of exactly the key and of exactly
    the chain code; decoding the two hex strings gives the fields
    back. *)
Theorem extended_key_layout (path : string) (pathBuf : Buffer) (w : World)
    (l1 l2 : byte) (pk cc trailer : Buffer) (d : Device) :
  pathToBuffer path = Ok pathBuf ->
  let f := mkAPDU 0x80 0x04 0x00 0x00 (Some pathBuf) in
  exchange (device w) f = (Ok (l1 :: pk ++ l2 :: cc ++ trailer), d) ->
  len pk = Z_of_byte l1 -> len cc = Z_of_byte l2 ->
  exists r : WalletExtendedPublicKey,
    getWalletExtendedPublicKey path w = (Ok r, mkWorld d (sent w ++ [f])) /\
    public_key r = toString_hex pk /\ chain_code r = toString_hex cc /\
    Buffer_from_hex (public_key r) = pk /\ Buffer_from_hex (chain_code r) = cc.
Proof.
  intros Hbuf f Ex Hpk Hcc.
  rewrite (extended_key_after_path _ _ _ Hbuf), bind_send. fold f. rewrite Ex.
  cbv zeta. unfold ret. eexists. split; [reflexivity|].
  cbn [public_key chain_code].
  pose proof (Z_of_byte_range l1) as Hl1. pose proof (Z_of_byte_range l2) as Hl2.
  assert (Hnpk : length pk = Z.to_nat (Z_of_byte l1)) by (unfold len in Hpk; lia).
  assert (Hncc : length cc = Z.to_nat (Z_of_byte l2)) by (unfold len in Hcc; lia).
  rewrite (key_field l1 pk (l2 :: cc ++ trailer) Hpk).
  unfold Buffer_get. change (0 <? 0) with false. change (Z.to_nat 0) with O.
  cbn [lookup list_lookup ToNumber js_add].
  assert ((1 + Z_of_byte l1 <? 0) = false) as -> by lia.
  replace (Z.to_nat (1 + Z_of_byte l1)) with (S (length pk)) by lia.
  change ((l1 :: pk ++ l2 :: cc ++ trailer) !! S (length pk))
    with ((pk ++ l2 :: cc ++ trailer) !! length pk).
  rewrite list_lookup_middle by reflexivity.
  cbn [ToNumber js_add]. rewrite slice_range by lia.
  replace (Z.to_nat (2 + Z_of_byte l1 + Z_of_byte l2 - (2 + Z_of_byte l1)))
    with (length cc) by lia.
  replace (Z.to_nat (2 + Z_of_byte l1)) with (S (length pk + 1)) by lia.
  cbn [drop]. rewrite drop_app_add.
  change (drop 1 (l2 :: cc ++ trailer)) with (cc ++ trailer).
  rewrite take_app_length.
  rewrite !Buffer_from_hex_toString_hex. auto.
Qed.

(** X12. The hash is the second reply without its last three bytes,
    whatever those three bytes are: they are dropped unread.  A second
    reply of three bytes or fewer gives the empty hash. *)
Theorem hash_drops_three_unread_bytes (w : World) (r1 r2 : Buffer) (d1 d2 : Device) :
  exchange (device w) (mkAPDU 0x80 0x00 0x00 0x00 None) = (Ok r1, d1) ->
  exchange d1 (mkAPDU 0x80 0x09 0x00 0x00 None) = (Ok r2, d2) ->
  exists cfg : AppConfiguration,
    fst (getAppConfiguration w) = Ok cfg /\
    (forall body tail : Buffer,
        r2 = body ++ tail -> length tail = 3%nat ->
        list_ascii_of_string (hash cfg) = map ascii_of_byte body) /\
    ((length r2 <= 3)%nat -> hash cfg = EmptyString).
Proof.
  intros E1 E2. rewrite (getAppConfiguration_run w r1 r2 d1 d2 E1 E2).
  eexists. split; [reflexivity|]. cbn [hash]. split.
  - intros body tail -> Ht. rewrite length_app, Ht.
    replace (length body + 3 - 3)%nat with (length body) by lia.
    rewrite take_app_length. unfold toString_latin1.
    apply list_ascii_of_string_of_list_ascii.
  - intros Hshort. now replace (length r2 - 3)%nat with O by lia.
Qed.

(** X13. A first reply of fewer than three bytes does not make
    [getAppConfiguration] fail: each version component that is missing
    reads undefined. *)
Theorem version_of_short_reply (w : World) (r1 r2 : Buffer) (d1 d2 : Device) :
  exchange (device w) (mkAPDU 0x80 0x00 0x00 0x00 None) = (Ok r1, d1) ->
  exchange d1 (mkAPDU 0x80 0x09 0x00 0x00 None) = (Ok r2, d2) ->
  (length r1 < 3)%nat ->
  exists cfg : AppConfiguration,
    fst (getAppConfiguration w) = Ok cfg /\
    (r1 = [] -> version cfg = "undefined.undefined.undefined"%string) /\
    (forall a, r1 = [a] ->
               version cfg
               = (js_string_of (Some a) ++ ".undefined.undefined")%string) /\
    (forall a b, r1 = [a; b] ->
                 version cfg
                 = (js_string_of (Some a) ++ "." ++ js_string_of (Some b)
                      ++ ".undefined")%string).
Proof.
  intros E1 E2 Hshort. rewrite (getAppConfiguration_run w r1 r2 d1 d2 E1 E2).
  eexists. split; [reflexivity|]. cbn [version].
  split; [now intros ->|]. split; [now intros a ->|]. now intros a b ->.
Qed.

(** X14. Of a reply to the public-key query, the bytes after the
    announced key field play no part: two replies with the same length
    byte and key, and different bytes after, give the same result. *)
Theorem key_reply_trailer_ignored (path : string) (pathBuf : Buffer)
    (testnet : bool) (w1 w2 : World) (l : byte) (key t1 t2 : Buffer)
    (d1 d2 : Device) :
  pathToBuffer path = Ok pathBuf ->
  let f := mkAPDU 0x80 0x02 0x00 0x00 (Some pathBuf) in
  exchange (device w1) f = (Ok (l :: key ++ t1), d1) ->
  exchange (device w2) f = (Ok (l :: key ++ t2), d2) ->
  len key = Z_of_byte l ->
  fst (getWalletPublicKey path testnet w1) = fst (getWalletPublicKey path testnet w2).
Proof.
  intros Hbuf f E1 E2 Hk.
  rewrite !getWalletPublicKey_derive, Hbuf. cbv zeta. fold f. rewrite E1, E2.
  cbn [fst]. rewrite !derive_any_length. cbv zeta.
  now rewrite !(key_field l key _ Hk).
Qed.

(** X15. The hex text of the message is not validated.  It is read in
    pairs of hex digits (0-9, a-f, A-F), one byte a pair; from the first
    place where two hex digits do not follow (an odd character left at
    the end included) the rest is dropped, and the signing operations
    behave as on the text before that place.  Every text splits in this
    way. *)
Theorem hex_input_not_validated :
  (forall good junk : string,
      hex_pairs (list_ascii_of_string good) = true ->
      starts_with_hex_pair (list_ascii_of_string junk) = false ->
      Buffer_from_hex (good ++ junk) = Buffer_from_hex good /\
      (2 * length (Buffer_from_hex good))%nat = String.length good /\
      (forall path displayHex w,
          signMessage path (good ++ junk) displayHex w
          = signMessage path good displayHex w) /\
      (forall path w,
          signMessageHash path (good ++ junk) w = signMessageHash path good w))
  /\ (forall rawMsgHex : string,
         exists good junk : string,
           rawMsgHex = (good ++ junk)%string /\
           hex_pairs (list_ascii_of_string good) = true /\
           starts_with_hex_pair (list_ascii_of_string junk) = false).
Proof.
  split.
  - intros good junk Hgood Hjunk.
    destruct (hex_decode_pairs _ _ (list_ascii_of_string junk) (Nat.le_refl _) Hgood)
      as [Happ Hlen].
    assert (Hdec : Buffer_from_hex (good ++ junk) = Buffer_from_hex good).
    { unfold Buffer_from_hex.
      rewrite list_ascii_of_string_app, Happ, (hex_decode_no_pair _ Hjunk).
      apply app_nil_r. }
    split; [exact Hdec|]. split.
    { unfold Buffer_from_hex. now rewrite Hlen, length_list_ascii_of_string. }
    split.
    + intros path displayHex w. unfold signMessage. now rewrite Hdec.
    + intros path w. unfold signMessageHash. now rewrite Hdec.
  - intros rawMsgHex.
    destruct (hex_split _ (list_ascii_of_string rawMsgHex) (Nat.le_refl _))
      as (good & junk & Hs & Hg & Hj).
    exists (string_of_list_ascii good), (string_of_list_ascii junk).
    rewrite !list_ascii_of_string_of_list_ascii.
    split; [|now split].
    now rewrite <- string_of_list_ascii_app, <- Hs, string_of_list_ascii_of_string.
Qed.

End Replies.

(* ================================================================== *)
(** ** More runs on concrete replies *)

Section ConcreteFixture.
#[local] Existing Instance Double.scripted.
#[local] Existing Instance Fixture.packages.
Local Open Scope string_scope.

Lemma fixture_parses_0 : parses_to "0" [0].
Proof. split; [reflexivity|]. repeat constructor; unfold uint32; lia. Defined.

Lemma fixture_parses_m0 : parses_to "m/0" [0].
Proof. split; [reflexivity|]. repeat constructor; unfold uint32; lia. Defined.

Lemma fixture_parses_ckb :
  parses_to "44'/144'/0'/0/0" [0x8000002C; 0x80000090; 0x80000000; 0; 0].
Proof. split; [reflexivity|]. repeat constructor; unfold uint32; lia. Defined.

Lemma path_encoding_and_rejection_witness :
  (exists buf : Buffer,
      pathToBuffer "44'/144'/0'/0/0" = Ok buf /\ len buf = 1 + 4 * 5) /\
  fails_before_transport "m/x" (Thrown "Error" "Invalid input") /\
  fails_before_transport (Fixture.sevens 256) ERR_OUT_OF_RANGE.
Proof.
  split; [|split].
  - destruct (path_encoding_and_rejection "44'/144'/0'/0/0") as (Henc & _ & _).
    destruct (Henc _ fixture_parses_ckb ltac:(vm_compute; discriminate))
      as (buf & first & Hbuf & Hlen & _).
    exists buf. split; [exact Hbuf | exact Hlen].
  - destruct (path_encoding_and_rejection "m/x") as (_ & Hrej & _).
    apply Hrej. reflexivity.
  - destruct (path_encoding_and_rejection (Fixture.sevens 256)) as (_ & _ & Hlong).
    apply (Hlong (replicate 256 7)); [reflexivity | vm_compute; reflexivity].
Defined.

(** C5: on a path of 256 segments the four operations throw the range
    error of the Buffer write, which is no error about paths: the code
    has none, and [signMessage] throws the very same on a path of 128
    segments that [pathToBuffer] encodes.  A path that does not parse
    gives the parser's own error. *)
Lemma too_long_path_throws_range_error :
  Double.run (getWalletPublicKey (Fixture.sevens 256) true) [Ok Double.status]
  = (Throw ERR_OUT_OF_RANGE, Double.world [Ok Double.status] []) /\
  Double.run (getWalletExtendedPublicKey (Fixture.sevens 256)) [Ok Double.status]
  = (Throw ERR_OUT_OF_RANGE, Double.world [Ok Double.status] []) /\
  Double.run (signMessage (Fixture.sevens 256) "00ff" false) [Ok Double.status]
  = (Throw ERR_OUT_OF_RANGE, Double.world [Ok Double.status] []) /\
  Double.run (signMessageHash (Fixture.sevens 256) "00ff") [Ok Double.status]
  = (Throw ERR_OUT_OF_RANGE, Double.world [Ok Double.status] []) /\
  (forall message : string,
      ERR_OUT_OF_RANGE <> Thrown "MalformedPathError" message) /\
  Double.run (signMessage (Fixture.sevens 128) "00ff" false) [Ok Double.status]
  = (Throw ERR_OUT_OF_RANGE, Double.world [Ok Double.status] []) /\
  pathToBuffer (Fixture.sevens 128) = Ok (encoded_path (replicate 128 7)) /\
  Double.run (getWalletPublicKey "m/x" true) [Ok Double.status]
  = (Throw (Thrown "Error" "Invalid input"), Double.world [Ok Double.status] []) /\
  (forall message : string,
      Thrown "Error" "Invalid input" <> Thrown "MalformedPathError" message).
Proof.
  repeat split; try (vm_compute; reflexivity); intros message; discriminate.
Qed.

Lemma pathToBuffer_succeeds_iff_witness :
  (exists buf : Buffer, pathToBuffer "1/2" = Ok buf) /\
  (exists segments : list Z,
      BIPPath_fromString "1/2" = Ok segments /\
      len segments <= 255 /\ Forall uint32 segments).
Proof.
  assert (Hsegs : exists segments : list Z,
             BIPPath_fromString "1/2" = Ok segments /\
             len segments <= 255 /\ Forall uint32 segments).
  { exists [1; 2]. split; [reflexivity|].
    split; [vm_compute; discriminate|]. repeat constructor; unfold uint32; lia. }
  split.
  - apply (proj2 (pathToBuffer_succeeds_iff "1/2") Hsegs).
  - apply (proj1 (pathToBuffer_succeeds_iff "1/2")).
    apply (proj2 (pathToBuffer_succeeds_iff "1/2") Hsegs).
Defined.

Lemma path_encoding_injective_witness :
  pathToBuffer "0" = pathToBuffer "m/0" /\ [0] = [0].
Proof.
  assert (Hsame : pathToBuffer "0" = pathToBuffer "m/0") by reflexivity.
  split; [exact Hsame|].
  apply (path_encoding_injective "0" "m/0" [0] [0] fixture_parses_0 fixture_parses_m0
           ltac:(vm_compute; discriminate) ltac:(vm_compute; discriminate) Hsame).
Defined.

End ConcreteFixture.

Section ConcreteMore.
#[local] Existing Instance Double.scripted.
#[local] Existing Instance Double.packages.
Local Open Scope string_scope.

Lemma pathToBuffer_0 : pathToBuffer "0" = Ok (encoded_path [0]).
Proof. reflexivity. Defined.

Lemma signMessage_stops_at_refused_frame_witness :
  Double.run (signMessage "0" "00ff" true) [Ok []; Throw Fixture.declined; Ok Double.key65]
  = (Throw Fixture.declined,
     Double.world [Ok Double.key65]
       [mkAPDU 0x80 0x06 0x00 0x00 (Some (byte_of_Z 1 :: encoded_path [0]));
        mkAPDU 0x80 0x06 0x81 0x00
               (Some (Buffer_from "Nervos Message:" ++ Buffer_from_hex "00ff")%list)]).
Proof.
  apply (signMessage_stops_at_refused_frame "0" "00ff" true [0]
           (Double.world [Ok []; Throw Fixture.declined; Ok Double.key65] [])
           (Double.world [Throw Fixture.declined; Ok Double.key65]
              [mkAPDU 0x80 0x06 0x00 0x00 (Some (byte_of_Z 1 :: encoded_path [0]))])
           [mkAPDU 0x80 0x06 0x00 0x00 (Some (byte_of_Z 1 :: encoded_path [0]))]
           []
           (mkAPDU 0x80 0x06 0x81 0x00
              (Some (Buffer_from "Nervos Message:" ++ Buffer_from_hex "00ff")%list))
           [[]] Fixture.declined [Ok Double.key65]
           parses_0 ltac:(vm_compute; discriminate) eq_refl eq_refl eq_refl).
Defined.

Lemma signMessageHash_stops_at_refusal_witness :
  Double.run (signMessageHash "0" "00ff") [Throw Fixture.declined; Ok Double.key65]
  = (Throw Fixture.declined,
     Double.world [Ok Double.key65]
       [mkAPDU 0x80 0x07 0x00 0x00 (Some (encoded_path [0]))])
  /\ Double.run (signMessageHash "0" "00ff") [Ok []; Throw Fixture.declined]
     = (Throw Fixture.declined,
        Double.world []
          [mkAPDU 0x80 0x07 0x00 0x00 (Some (encoded_path [0]));
           mkAPDU 0x80 0x07 0x80 0x00 (Some (Buffer_from_hex "00ff"))]).
Proof.
  split.
  - destruct (signMessageHash_stops_at_refusal "0" "00ff" [0]
                (Double.world [Throw Fixture.declined; Ok Double.key65] [])
                parses_0 ltac:(vm_compute; discriminate)) as [Hinit _].
    apply (Hinit Fixture.declined [Ok Double.key65] eq_refl).
  - destruct (signMessageHash_stops_at_refusal "0" "00ff" [0]
                (Double.world [Ok []; Throw Fixture.declined] [])
                parses_0 ltac:(vm_compute; discriminate)) as [_ Hfinal].
    apply (Hfinal [] [Throw Fixture.declined] Fixture.declined [] eq_refl eq_refl).
Defined.

Lemma getAppConfiguration_stops_at_refusal_witness :
  Double.run getAppConfiguration [Throw Fixture.declined; Ok Double.status]
  = (Throw Fixture.declined,
     Double.world [Ok Double.status] [mkAPDU 0x80 0x00 0x00 0x00 None])
  /\ Double.run getAppConfiguration [Ok Double.status; Throw Fixture.declined]
     = (Throw Fixture.declined,
        Double.world []
          [mkAPDU 0x80 0x00 0x00 0x00 None; mkAPDU 0x80 0x09 0x00 0x00 None]).
Proof.
  split.
  - destruct (getAppConfiguration_stops_at_refusal
                (Double.world [Throw Fixture.declined; Ok Double.status] []))
      as [Hfirst _].
    apply (Hfirst Fixture.declined [Ok Double.status] eq_refl).
  - destruct (getAppConfiguration_stops_at_refusal
                (Double.world [Ok Double.status; Throw Fixture.declined] []))
      as [_ Hsecond].
    apply (Hsecond Double.status [Throw Fixture.declined] Fixture.declined []
                   eq_refl eq_refl).
Defined.

Lemma key_queries_make_one_exchange_witness :
  Double.run getWalletId [Throw Fixture.declined; Ok Double.status]
  = (Throw Fixture.declined,
     Double.world [Ok Double.status] [mkAPDU 0x80 0x01 0x00 0x00 None])
  /\ Double.run (getWalletPublicKey "0" true) [Throw Fixture.declined]
     = (Throw Fixture.declined,
        Double.world [] [mkAPDU 0x80 0x02 0x00 0x00 (Some (encoded_path [0]))])
  /\ Double.run (getWalletExtendedPublicKey "0") [Throw Fixture.declined]
     = (Throw Fixture.declined,
        Double.world [] [mkAPDU 0x80 0x04 0x00 0x00 (Some (encoded_path [0]))]).
Proof.
  destruct key_queries_make_one_exchange as (Hid & Hkey & Hext).
  split; [|split].
  - destruct (Hid (Double.world [Throw Fixture.declined; Ok Double.status] []))
      as [_ Hthrow].
    apply (Hthrow Fixture.declined [Ok Double.status] eq_refl).
  - destruct (Hkey "0" (encoded_path [0]) true (Double.world [Throw Fixture.declined] [])
                   pathToBuffer_0) as [_ Hthrow].
    apply (Hthrow Fixture.declined [] eq_refl).
  - destruct (Hext "0" (encoded_path [0]) (Double.world [Throw Fixture.declined] [])
                   pathToBuffer_0) as [_ Hthrow].
    apply (Hthrow Fixture.declined [] eq_refl).
Defined.

Lemma extended_key_layout_witness :
  exists r : WalletExtendedPublicKey,
    fst (Double.run (getWalletExtendedPublicKey "0")
           [Ok (Double.bytes [2; 10; 11; 3; 1; 2; 3; 0x90; 0x00])])
    = Ok r /\
    public_key r = "0a0b" /\ chain_code r = "010203".
Proof.
  destruct (extended_key_layout "0" (encoded_path [0])
              (Double.world [Ok (Double.bytes [2; 10; 11; 3; 1; 2; 3; 0x90; 0x00])] [])
              (byte_of_Z 2) (byte_of_Z 3) (Double.bytes [10; 11])
              (Double.bytes [1; 2; 3]) Double.status []
              pathToBuffer_0 eq_refl eq_refl eq_refl)
    as (r & Hrun & Hpk & Hcc & _).
  exists r. unfold Double.run. rewrite Hrun. split; [reflexivity|].
  split; [exact Hpk | exact Hcc].
Defined.

Lemma hash_drops_three_unread_bytes_witness :
  exists cfg : AppConfiguration,
    fst (Double.run getAppConfiguration
           [Ok (Double.bytes [1; 0; 3]); Ok (Double.bytes [97; 98; 7; 8; 9])])
    = Ok cfg /\
    list_ascii_of_string (hash cfg) = map ascii_of_byte (Double.bytes [97; 98]).
Proof.
  destruct (hash_drops_three_unread_bytes
              (Double.world [Ok (Double.bytes [1; 0; 3]);
                             Ok (Double.bytes [97; 98; 7; 8; 9])] [])
              (Double.bytes [1; 0; 3]) (Double.bytes [97; 98; 7; 8; 9])
              [Ok (Double.bytes [97; 98; 7; 8; 9])] [] eq_refl eq_refl)
    as (cfg & Hrun & Htail & _).
  exists cfg. split; [exact Hrun|].
  apply (Htail (Double.bytes [97; 98]) (Double.bytes [7; 8; 9]) eq_refl eq_refl).
Defined.

Lemma version_of_short_reply_witness :
  exists cfg : AppConfiguration,
    fst (Double.run getAppConfiguration
           [Ok (Double.bytes [1; 12]); Ok Double.status])
    = Ok cfg /\
    version cfg = "1.12.undefined".
Proof.
  destruct (version_of_short_reply
              (Double.world [Ok (Double.bytes [1; 12]); Ok Double.status] [])
              (Double.bytes [1; 12]) Double.status [Ok Double.status] []
              eq_refl eq_refl ltac:(vm_compute; lia))
    as (cfg & Hrun & _ & _ & Htwo).
  exists cfg. split; [exact Hrun|].
  apply (Htwo (byte_of_Z 1) (byte_of_Z 12) eq_refl).
Defined.

Lemma key_reply_trailer_ignored_witness :
  fst (Double.run (getWalletPublicKey "0" false)
                  [Ok (byte_of_Z 65 :: Double.key65 ++ Double.status)])
  = fst (Double.run (getWalletPublicKey "0" false)
                    [Ok (byte_of_Z 65 :: Double.key65 ++ Double.bytes [1; 2; 3; 4])]).
Proof.
  apply (key_reply_trailer_ignored "0" (encoded_path [0]) false
           (Double.world [Ok (byte_of_Z 65 :: Double.key65 ++ Double.status)] [])
           (Double.world [Ok (byte_of_Z 65 :: Double.key65 ++ Double.bytes [1; 2; 3; 4])] [])
           (byte_of_Z 65) Double.key65 Double.status (Double.bytes [1; 2; 3; 4]) [] []
           pathToBuffer_0 eq_refl eq_refl eq_refl).
Defined.

Lemma hex_input_not_validated_witness :
  Buffer_from_hex "00FFff0g11" = Double.bytes [0; 255; 255] /\
  Buffer_from_hex "0g11" = [] /\
  Buffer_from_hex "00ff1" = Double.bytes [0; 255] /\
  Double.run (signMessageHash "0" "00FFff0g11") [Ok []; Ok Double.key65]
  = Double.run (signMessageHash "0" "00FFff") [Ok []; Ok Double.key65].
Proof.
  destruct hex_input_not_validated as [Hdrop _].
  destruct (Hdrop "00FFff" "0g11" eq_refl eq_refl) as (Hdec & _ & _ & Hhash).
  destruct (Hdrop EmptyString "0g11" eq_refl eq_refl) as (Hodd & _).
  destruct (Hdrop "00ff" "1" eq_refl eq_refl) as (Hlast & _).
  split; [exact Hdec|]. split; [exact Hodd|]. split; [exact Hlast|].
  apply (Hhash "0" (Double.world [Ok []; Ok Double.key65] [])).
Defined.

End ConcreteMore.

(* ================================================================== *)
(** ** Runs with the digest and the encoder of the packages *)

Section ConcreteReference.
#[local] Existing Instance Double.scripted.
#[local] Existing Instance Reference.packages.
Local Open Scope string_scope.

(** BLAKE2b-512 of abc (RFC 7693, appendix A). *)
Example blake2b_abc :
  toString_hex (Reference.blake2b 64 None None None (Buffer_from "abc"))
  = "ba80a53f981c4d0d6a2797b69f12f6e94c212f14685ac4b74b12bb6fdbffa2d17d87c5392aab792dc252d5de4533cc9518d38aa8dbf1925ab92386edd4009923".
Proof. vm_compute. reflexivity. Qed.

(** The CKB hash of the empty input. *)
Example blake2b_ckb_empty :
  toString_hex (Reference.blake2b 32 None None (Some hashPersonalization) [])
  = "44f4c69744d5f8c55d642062949dcae49bc4e7ef43d388c5a12f42b5633d163e".
Proof. vm_compute. reflexivity. Qed.

(** Test vectors of BIP 173 and BIP 350. *)
Example bech32_vectors :
  bech32_encode Reference.bech32_export "A" [] 90 = Ok "a12uel5l" /\
  bech32_encode Reference.bech32m_export "A" [] 90 = Ok "a1lqfn3a" /\
  bech32_encode Reference.bech32m_export "abcdef"
                (map Z.of_nat (rev (seq 0 32))) 90
  = Ok "abcdef1l7aum6echk45nj3s0wdvt2fg8x9yrzpqzd3ryx".
Proof. repeat split; vm_compute; reflexivity. Qed.

(** The two addresses of a three-byte key field. *)
Example addresses_of_short_key :
  mapR address
       (fst (Double.run (getWalletPublicKey "0" false)
                        [Ok (Double.bytes [3; 2; 7; 9; 0x90; 0x00])]))
  = Ok "ckb1qzda0cr08m85hc8jlnfp3zer7xulejywt49kt2rr0vthywaa50xwsqw9ktjgxef9r20lpj2zeyza7va8xkr8mlgyn7642" /\
  mapR address
       (fst (Double.run (getWalletPublicKey "0" true)
                        [Ok (Double.bytes [3; 2; 7; 9; 0x90; 0x00])]))
  = Ok "ckt1qzda0cr08m85hc8jlnfp3zer7xulejywt49kt2rr0vthywaa50xwsqw9ktjgxef9r20lpj2zeyza7va8xkr8mlg2p44lj".
Proof. split; vm_compute; reflexivity. Qed.

(** C6: for one 65-byte key the two addresses share publicKey, lockArg
    and the data after the prefix, and end in different checksums: they
    do not differ in the prefix only. *)
Lemma addresses_differ_in_checksum_too :
  exists rT rM : WalletPublicKey,
    fst (Double.run (getWalletPublicKey "44'/144'/0'/0/0" true)
                    [Ok (byte_of_Z 65 :: Double.key65 ++ Double.status)])
    = Ok rT /\
    fst (Double.run (getWalletPublicKey "44'/144'/0'/0/0" false)
                    [Ok (byte_of_Z 65 :: Double.key65 ++ Double.status)])
    = Ok rM /\
    publicKey rT = publicKey rM /\
    lockArg rT = lockArg rM /\
    address rT
    = "ckt1qzda0cr08m85hc8jlnfp3zer7xulejywt49kt2rr0vthywaa50xwsqtynysuedcmt8pzv6renyt6n6gsz8mnnhcv2kk2m" /\
    address rM
    = "ckb1qzda0cr08m85hc8jlnfp3zer7xulejywt49kt2rr0vthywaa50xwsqtynysuedcmt8pzv6renyt6n6gsz8mnnhczcaeqr" /\
    ~ (exists rest : string,
          address rT = "ckt" ++ rest /\ address rM = "ckb" ++ rest).
Proof.
  eexists. eexists.
  split; [vm_compute; reflexivity|]. split; [vm_compute; reflexivity|].
  cbn [publicKey lockArg address].
  split; [reflexivity|]. split; [reflexivity|].
  split; [reflexivity|]. split; [reflexivity|].
  intros (rest & HT & HM). cbn in HT, HM.
  injection HT as <-. discriminate HM.
Qed.

End ConcreteReference.
